(** * agent-web-scraper: a shallow embedding of the pipeline stages
      (agent/utils/nodes.py) and of the job API (main.py).

    Conventions.
    - A Python [str] is a [string]; a character is a code point below 256.
    - A Python call that may raise returns an [outcome].
    - Calls to external services (Firecrawl, the LLM, the file system) go
      through a [Capabilities] record that threads an abstract [World];
      each call is also recorded in a trace of [Event]s, so that what a
      stage sent out can be stated.
    - A Python [dict] keyed by job id is a [gmap string _]. *)

From Stdlib Require Import ZArith String Ascii List Lia Sorted Permutation.
From stdpp Require Import base option list strings gmap.

Local Open Scope string_scope.
Local Open Scope list_scope.
Local Open Scope Z_scope.
Set Warnings "-register-all".

(** ** Python primitives *)

Module Py.

(** The exceptions of the program, all of them instances of [Exception].
    [JSONDecodeError] is a subclass of [ValueError] in Python; here
    [ValueError] stands for a [ValueError] that is not a
    [JSONDecodeError]. *)
Inductive PyExc : Type :=
| HTTPException (status_code : Z) (detail : string)
| KeyError (key : string)
| ValueError (msg : string)
| TypeError (msg : string)
| JSONDecodeError (msg : string)
| RecursionError (msg : string)
| OtherError (msg : string).

(** [isinstance(e, json.JSONDecodeError)], the test of
    [except json.JSONDecodeError]. *)
Definition is_json_decode_error (e : PyExc) : bool :=
  match e with
  | JSONDecodeError _ => true
  | _ => false
  end.

Inductive outcome (A : Type) : Type :=
| Return (a : A)
| Raise (e : PyExc).
Arguments Return {A} a.
Arguments Raise {A} e.

(** Normalisation of a slice bound against a sequence of length [len]. *)
Definition clamp_index (len i : Z) : Z :=
  if i <? 0 then Z.max 0 (i + len) else Z.min i len.

(** [l[i:j]] *)
Definition py_slice {A : Type} (l : list A) (i j : Z) : list A :=
  let n := Z.of_nat (length l) in
  let lo := clamp_index n i in
  let hi := clamp_index n j in
  take (Z.to_nat (hi - lo)) (drop (Z.to_nat lo) l).

(** [l[:j]] *)
Definition py_slice_to {A : Type} (l : list A) (j : Z) : list A :=
  py_slice l 0 j.

Fixpoint range_up (fuel : nat) (i stop step : Z) : list Z :=
  match fuel with
  | O => []
  | S fuel' =>
      if i <? stop then i :: range_up fuel' (i + step) stop step else []
  end.

Fixpoint range_down (fuel : nat) (i stop step : Z) : list Z :=
  match fuel with
  | O => []
  | S fuel' =>
      if stop <? i then i :: range_down fuel' (i + step) stop step else []
  end.

(** [range(start, stop, step)]: at most [|stop - start|] elements, which
    bounds the fuel. *)
Definition py_range (start stop step : Z) : outcome (list Z) :=
  if step =? 0 then Raise (ValueError "range() arg 3 must not be zero")
  else if 0 <? step
       then Return (range_up (Z.to_nat (stop - start)) start stop step)
       else Return (range_down (Z.to_nat (start - stop)) start stop step).

(** [len(s)] and [s[:n]] on strings, [n >= 0]. *)
Fixpoint str_take (n : nat) (s : string) : string :=
  match n, s with
  | O, _ => EmptyString
  | S _, EmptyString => EmptyString
  | S n', String c s' => String c (str_take n' s')
  end.

(** Truthiness of a [str] and of a [list]. *)
Definition str_truthy (s : string) : bool :=
  match s with EmptyString => false | String _ _ => true end.

Definition list_truthy {A : Type} (l : list A) : bool :=
  match l with [] => false | _ :: _ => true end.

(** An attribute of a foreign object: absent, present with value [None],
    or present with a value. *)
Inductive attr (A : Type) : Type :=
| NoAttr
| AttrNone
| Attr (a : A).
Arguments NoAttr {A}.
Arguments AttrNone {A}.
Arguments Attr {A} a.

(** [x.f if hasattr(x, 'f') else d]; the result [None] is Python's. *)
Definition getattr_or {A : Type} (x : attr A) (d : option A) : option A :=
  match x with
  | NoAttr => d
  | AttrNone => None
  | Attr a => Some a
  end.

(** [str.isspace] on one character, which is also the class [\s] of [re]. *)
Definition is_space (c : ascii) : bool :=
  let n := nat_of_ascii c in
  ((9 <=? n) && (n <=? 13) || (28 <=? n) && (n <=? 32)
   || (n =? 133) || (n =? 160))%nat.

Fixpoint lstrip (s : string) : string :=
  match s with
  | EmptyString => EmptyString
  | String c s' => if is_space c then lstrip s' else s
  end.

Fixpoint rstrip (s : string) : string :=
  match s with
  | EmptyString => EmptyString
  | String c s' =>
      match rstrip s' with
      | EmptyString => if is_space c then EmptyString else String c EmptyString
      | r => String c r
      end
  end.

(** [s.strip()] *)
Definition strip (s : string) : string := rstrip (lstrip s).

(** [Some rest] when [s = p + rest]. *)
Fixpoint strip_prefix (p s : string) : option string :=
  match p, s with
  | EmptyString, _ => Some s
  | String a p', String b s' =>
      if Ascii.eqb a b then strip_prefix p' s' else None
  | String _ _, EmptyString => None
  end.

Definition dquote : string := String (ascii_of_nat 34) EmptyString.
Definition nl : string := String (ascii_of_nat 10) EmptyString.

Fixpoint spaces (n : nat) : string :=
  match n with
  | O => EmptyString
  | S n' => String (ascii_of_nat 32) (spaces n')
  end.

(** Every character of [s] satisfies [P]. *)
Fixpoint str_all (P : ascii -> bool) (s : string) : bool :=
  match s with
  | EmptyString => true
  | String c s' => P c && str_all P s'
  end.

(** No backquote in [s]; white space only in [s]. *)
Definition no_backquote (s : string) : bool :=
  str_all (fun c => negb (Ascii.eqb c "`")) s.

Definition all_space (s : string) : bool := str_all is_space s.

End Py.
Import Py.

(** ** The pipeline stages (agent/utils/nodes.py) *)

Module Nodes.

(** *** Data *)

(** What [json.loads] returns. *)
Inductive Json : Type :=
| JNull
| JBool (b : bool)
| JNum (z : Z)
| JStr (s : string)
| JList (l : list Json)
| JObj (kv : list (string * Json)).

(** Firecrawl's [Document] and its [metadata], read with [hasattr]. *)
Record Metadata : Type := { md_url : attr string }.

Record Document : Type := {
  doc_metadata : attr Metadata;
  doc_markdown : attr string;
  doc_links : attr (list string)
}.

(** [CrawlJob] and [BatchScrapeJob]: only [data] is read. *)
Record CrawlJob : Type := { cj_data : attr (list Document) }.
Record BatchScrapeJob : Type := { bs_data : attr (list Document) }.

(** The message [llm.invoke] returns. *)
Record AIMessage : Type := { content : string }.

(** One element of [formatted_data]: [{"url": url, "response": ...}]. *)
Record Entry : Type := { e_url : option string; e_response : Json }.

(** [{"source_url": ..., "data": ...}] *)
Record Output : Type := { source_url : string; data : list Entry }.

Record InputState : Type := { in_url : option string }.

Record GraphState : Type := {
  url : string;
  url_batches : list (list string);
  scraped_data : list Document;
  formatted_data : list Entry;
  error : string;
  retry_count : Z;
  failed_node : string
}.

Definition set_url_batches (v : list (list string)) (s : GraphState) :=
  {| url := url s; url_batches := v; scraped_data := scraped_data s;
     formatted_data := formatted_data s; error := error s;
     retry_count := retry_count s; failed_node := failed_node s |}.

Definition set_scraped_data (v : list Document) (s : GraphState) :=
  {| url := url s; url_batches := url_batches s; scraped_data := v;
     formatted_data := formatted_data s; error := error s;
     retry_count := retry_count s; failed_node := failed_node s |}.

Definition set_formatted_data (v : list Entry) (s : GraphState) :=
  {| url := url s; url_batches := url_batches s;
     scraped_data := scraped_data s; formatted_data := v; error := error s;
     retry_count := retry_count s; failed_node := failed_node s |}.

Definition set_error (v : string) (s : GraphState) :=
  {| url := url s; url_batches := url_batches s;
     scraped_data := scraped_data s; formatted_data := formatted_data s;
     error := v; retry_count := retry_count s;
     failed_node := failed_node s |}.

Definition set_retry_count (v : Z) (s : GraphState) :=
  {| url := url s; url_batches := url_batches s;
     scraped_data := scraped_data s; formatted_data := formatted_data s;
     error := error s; retry_count := v; failed_node := failed_node s |}.

Definition set_failed_node (v : string) (s : GraphState) :=
  {| url := url s; url_batches := url_batches s;
     scraped_data := scraped_data s; formatted_data := formatted_data s;
     error := error s; retry_count := retry_count s; failed_node := v |}.

(** *** External calls *)

Inductive Event : Type :=
| EvCrawl (target : string)
| EvBatchScrape (urls : list string)
| EvLlmInvoke (prompt : string)
| EvWriteJson (path : string) (payload : Output).

(** The services and library functions the stages call. [is_valid_url]
    (agent/utils/helpers.py) and the environment are inputs of the
    model; [getenv_int name] is [int(os.getenv(name))]; [json_loads]
    is [json.loads], which returns the value it parsed or raises:
    [JSONDecodeError] on text that is not JSON, and on some texts another
    exception ([RecursionError] on deep nesting, a plain [ValueError] on
    an integer with too many digits). *)
Record Capabilities (World : Type) : Type := {
  firecrawl_crawl : string -> World -> outcome CrawlJob * World;
  firecrawl_batch_scrape :
    list string -> World -> outcome BatchScrapeJob * World;
  llm_invoke : string -> World -> outcome (option AIMessage) * World;
  write_json : string -> Output -> World -> outcome unit * World;
  is_valid_url : string -> string -> bool;
  getenv_int : string -> outcome Z;
  json_loads : string -> outcome Json
}.
Arguments firecrawl_crawl {World} _ _ _.
Arguments firecrawl_batch_scrape {World} _ _ _.
Arguments llm_invoke {World} _ _ _.
Arguments write_json {World} _ _ _ _.
Arguments is_valid_url {World} _ _ _.
Arguments getenv_int {World} _ _.
Arguments json_loads {World} _ _.

(** A stage is a computation over the world that records its external
    calls and ends in a value or an exception. *)
Record Run (World A : Type) : Type := {
  trace : list Event;
  world : World;
  value : outcome A
}.
Arguments trace {World A} _.
Arguments world {World A} _.
Arguments value {World A} _.

Definition M (World A : Type) : Type := World -> Run World A.

Definition ret {World A : Type} (a : A) : M World A :=
  fun w => {| trace := []; world := w; value := Return a |}.

Definition lift {World A : Type} (o : outcome A) : M World A :=
  fun w => {| trace := []; world := w; value := o |}.

Definition bind {World A B : Type} (m : M World A) (k : A -> M World B)
  : M World B :=
  fun w =>
    let r := m w in
    match value r with
    | Raise e => {| trace := trace r; world := world r; value := Raise e |}
    | Return a =>
        let r' := k a (world r) in
        {| trace := trace r ++ trace r'; world := world r';
           value := value r' |}
    end.

Definition call {World A : Type} (ev : Event)
    (f : World -> outcome A * World) : M World A :=
  fun w =>
    let '(o, w') := f w in {| trace := [ev]; world := w'; value := o |}.

#[local] Notation "'let*' x <- m ;; k" := (bind m (fun x => k))
  (at level 10, x name, m at level 99, k at level 200).

(** *** initialize *)

Definition initialize (state : InputState) : GraphState :=
  {| url := default "" (in_url state);
     url_batches := [];
     scraped_data := [];
     formatted_data := [];
     error := "";
     retry_count := 0;
     failed_node := "" |}.

(** *** crawl (body, without its decorator) *)

(** Line 60:
    [[limited_urls[i:i + B] for i in range(0, len(limited_urls), B)]]
    with [B = int(os.getenv("BATCH_LIMIT"))]. *)
Definition plan_batches {A : Type} (limited_urls : list A) (B : Z)
  : outcome (list (list A)) :=
  match py_range 0 (Z.of_nat (length limited_urls)) B with
  | Raise e => Raise e
  | Return starts =>
      Return (map (fun i => py_slice limited_urls i (i + B)) starts)
  end.

(** [ceil(n / b)] on non-negative integers, [b > 0]. *)
Definition ceil_div (n b : Z) : Z := (n + b - 1) / b.

(** [len(x)] where [x] may be [None]. *)
Definition checked_len {A : Type} (x : option (list A))
  : outcome (list A) :=
  match x with
  | None => Raise (TypeError "object of type 'NoneType' has no len()")
  | Some l => Return l
  end.

Section Stages.
Context {World : Type} (cap : Capabilities World).

Definition crawl (state : GraphState) : M World GraphState :=
  let input_url := url state in
  let* response <-
    call (EvCrawl input_url) (firecrawl_crawl cap input_url) ;;
  let* data <- lift (checked_len (getattr_or (cj_data response) (Some []))) ;;
  match data with
  | first_doc :: _ =>
      let* scraped_urls <-
        lift (checked_len (getattr_or (doc_links first_doc) (Some []))) ;;
      let valid_urls :=
        List.filter (fun u => is_valid_url cap u input_url) scraped_urls in
      let* url_limit <- lift (getenv_int cap "URL_LIMIT") ;;
      let limited_urls := py_slice_to valid_urls url_limit in
      let* batch_limit <- lift (getenv_int cap "BATCH_LIMIT") ;;
      let* batches <- lift (plan_batches limited_urls batch_limit) ;;
      ret (set_url_batches batches state)
  | [] => ret (set_url_batches [] state)
  end.

(** *** scrap (body) *)

(** Truthiness of [data], which may be [None]. *)
Definition data_truthy {A : Type} (x : option (list A)) : bool :=
  match x with
  | Some (_ :: _) => true
  | _ => false
  end.

Definition scrap (state : GraphState) : M World GraphState :=
  match url_batches state with
  | current_batch :: remaining =>
      let* batch_scrap_result <-
        call (EvBatchScrape current_batch)
             (firecrawl_batch_scrape cap current_batch) ;;
      let data := getattr_or (bs_data batch_scrap_result) (Some []) in
      if data_truthy data
      then
        (* scraped_data_result = data; state["url_batches"].pop(0) *)
        ret (set_scraped_data (default [] data)
               (set_url_batches remaining state))
      else ret (set_scraped_data [] state)
  | [] => ret (set_scraped_data [] state)
  end.

(** *** format (body) *)

(** The f-string sent to the model, around [{markdown}]. *)
Definition prompt_prefix : string :=
  nl +:+ spaces 20
  +:+ "Analyze the provided information and generate a summarized output using the specified structure. "
  +:+ nl +:+ spaces 8
  +:+ nl +:+ spaces 20 +:+ "### Content:"
  +:+ nl +:+ spaces 20.

Definition prompt_suffix : string :=
  nl +:+ spaces 20
  +:+ nl +:+ spaces 20
  +:+ "### Structured JSON Output (MUST be valid JSON):"
  +:+ nl +:+ spaces 20 +:+ "{"
  +:+ nl +:+ spaces 24 +:+ dquote +:+ "title" +:+ dquote +:+ ": "
  +:+ dquote +:+ "A short title summarizing the topic" +:+ dquote +:+ ","
  +:+ nl +:+ spaces 24 +:+ dquote +:+ "description" +:+ dquote +:+ ": "
  +:+ dquote
  +:+ "A 2/3 lines summary of the first couple of paragraphs of the markdown."
  +:+ dquote
  +:+ nl +:+ spaces 20 +:+ "}"
  +:+ nl +:+ spaces 20
  +:+ nl +:+ spaces 20 +:+ "Return ONLY the JSON object, nothing else."
  +:+ nl +:+ spaces 16.

Definition prompt (markdown : string) : string :=
  prompt_prefix +:+ markdown +:+ prompt_suffix.

(** [markdown[:2000] if markdown and len(markdown) > 2000 else markdown] *)
Definition truncate_markdown (markdown : string) : string :=
  if str_truthy markdown && (2000 <? String.length markdown)%nat
  then str_take 2000 markdown
  else markdown.

(** The pattern of line 133, searched with [re.DOTALL]: three
    backquotes, an optional [json], white space, then group 1, from a
    brace lazily to the first closing brace that white space and three
    backquotes follow. Every quantifier of the pattern has one way to
    match, so search needs no backtracking beyond the start position
    and the lazy body. *)
Definition fence : string := "```".

(** [\s*```] at the start of [s]. *)
Definition fence_closes (s : string) : bool :=
  match strip_prefix fence (lstrip s) with
  | Some _ => true
  | None => false
  end.

(** [.*?\}\s*```] at the start of [s]: the text up to and including
    the closing brace. *)
Fixpoint lazy_body (s : string) : option string :=
  match s with
  | EmptyString => None
  | String c s' =>
      if Ascii.eqb c "}" && fence_closes s'
      then Some (String c EmptyString)
      else match lazy_body s' with
           | Some body => Some (String c body)
           | None => None
           end
  end.

(** The whole pattern at the start of [s]; the result is group 1. *)
Definition fence_match_at (s : string) : option string :=
  match strip_prefix fence s with
  | None => None
  | Some after_fence =>
      let after_tag :=
        match strip_prefix "json" after_fence with
        | Some r => r
        | None => after_fence
        end in
      match lstrip after_tag with
      | String c body =>
          if Ascii.eqb c "{"
          then match lazy_body body with
               | Some b => Some (String c b)
               | None => None
               end
          else None
      | EmptyString => None
      end
  end.

(** [re.search(...)] then [group(1)]: the leftmost match. *)
Fixpoint json_fence_search (s : string) : option string :=
  match fence_match_at s with
  | Some g => Some g
  | None =>
      match s with
      | EmptyString => None
      | String _ s' => json_fence_search s'
      end
  end.

(** Lines 130-138 of the [try] block: the value [json.loads] returns, or
    the exception it raises. *)
Definition parse_response (response_content : string) : outcome Json :=
  let content_str := strip response_content in
  let content_str :=
    match json_fence_search content_str with
    | Some group1 => group1
    | None => content_str
    end in
  json_loads cap content_str.

Definition fallback_entry (url : option string) (markdown : string)
  : Entry :=
  {| e_url := url;
     e_response :=
       JObj [("title", JStr "Error parsing content");
             ("description", JStr (str_take 200 markdown))] |}.

(** One iteration of the loop of [format]: [formatted_data] is the
    list built so far; [continue] returns it as it is. *)
Definition format_item (content_doc : Document)
    (formatted_data : list Entry) : M World (list Entry) :=
  match getattr_or (doc_metadata content_doc) None with
  | None => ret formatted_data
  | Some metadata =>
      let url := getattr_or (md_url metadata) (Some "") in
      match getattr_or (doc_markdown content_doc) (Some "") with
      | None => ret formatted_data
      | Some markdown =>
          if negb (str_truthy markdown) then ret formatted_data
          else
            let markdown := truncate_markdown markdown in
            let* response <-
              call (EvLlmInvoke (prompt markdown))
                   (llm_invoke cap (prompt markdown)) ;;
            match response with
            | None => ret formatted_data
            | Some message =>
                if negb (str_truthy (content message))
                then ret formatted_data
                else
                  match parse_response (content message) with
                  | Return parsed_response =>
                      ret (formatted_data
                             ++ [{| e_url := url;
                                    e_response := parsed_response |}])
                  | Raise e =>
                      (* except json.JSONDecodeError as e: *)
                      if is_json_decode_error e
                      then
                        ret (formatted_data ++ [fallback_entry url markdown])
                      else lift (Raise e)
                  end
            end
      end
  end.

(** A page that reaches the model: it has metadata and non-empty
    markdown. *)
Definition summarizable (p : Document) (m : Metadata) (md : string) : Prop :=
  getattr_or (doc_metadata p) None = Some m
  /\ getattr_or (doc_markdown p) (Some "") = Some md
  /\ md <> "".

(** The value of an iteration on such a page, as a function of the
    answer of the model (lines 124-154). *)
Definition after_reply (url : option string) (md : string)
    (acc : list Entry) (reply : outcome (option AIMessage))
  : outcome (list Entry) :=
  match reply with
  | Raise e => Raise e
  | Return None => Return acc
  | Return (Some message) =>
      if negb (str_truthy (content message)) then Return acc
      else match parse_response (content message) with
           | Return parsed =>
               Return (acc ++ [{| e_url := url; e_response := parsed |}])
           | Raise e =>
               if is_json_decode_error e
               then Return (acc ++ [fallback_entry url md])
               else Raise e
           end
  end.

Fixpoint format_loop (scraped : list Document)
    (formatted_data : list Entry) : M World (list Entry) :=
  match scraped with
  | [] => ret formatted_data
  | content_doc :: rest =>
      let* formatted_data <- format_item content_doc formatted_data ;;
      format_loop rest formatted_data
  end.

Definition format (state : GraphState) : M World GraphState :=
  let* formatted_data <-
    (if list_truthy (scraped_data state)
     then format_loop (scraped_data state) []
     else ret []) ;;
  ret (set_formatted_data formatted_data state).

(** *** save (body) *)

(** [save] returns [{"result": output}] or the state it was given. *)
Inductive SaveReturn : Type :=
| ResultDict (result : Output)
| StateDict (state : GraphState).

(** [d.get("result")] on what [save] returned: a state has no such key. *)
Definition get_result (d : SaveReturn) : option Output :=
  match d with
  | ResultDict output => Some output
  | StateDict _ => None
  end.

Definition save (state : GraphState) : M World SaveReturn :=
  let source_url := url state in
  let formatted_data := formatted_data state in
  if str_truthy source_url && list_truthy formatted_data
  then
    let output := {| source_url := source_url; data := formatted_data |} in
    let* _ <-
      call (EvWriteJson "scraped_data.json" output)
           (write_json cap "scraped_data.json" output) ;;
    ret (ResultDict output)
  else ret (StateDict state).

End Stages.

(** *** error_handler *)

Definition error_handler (state : GraphState) : GraphState :=
  set_error "" (set_retry_count (retry_count state + 1) state).

(** The [url] that [format] puts in the entry of a page. *)
Definition page_url (p : Document) : option string :=
  match getattr_or (doc_metadata p) None with
  | Some metadata => getattr_or (md_url metadata) (Some "")
  | None => None
  end.

End Nodes.

(** ** The job API (main.py) *)

Module Main.
Import Nodes.

Inductive JobStatus : Type := PENDING | RUNNING | COMPLETED | FAILED.

(** The value under ["result"] of a job: [None], the empty dict that
    [result.get("result", {})] defaults to, or the output of [save]. *)
Inductive JobResult : Type :=
| ResultNone
| ResultEmpty
| ResultOutput (output : Output).

Record Job : Type := {
  j_job_id : string;
  j_url : string;
  j_status : JobStatus;
  j_created_at : string;
  j_completed_at : option string;
  j_result : JobResult;
  j_error : option string
}.

Definition with_status (v : JobStatus) (j : Job) : Job :=
  {| j_job_id := j_job_id j; j_url := j_url j; j_status := v;
     j_created_at := j_created_at j; j_completed_at := j_completed_at j;
     j_result := j_result j; j_error := j_error j |}.

Definition with_completed_at (v : option string) (j : Job) : Job :=
  {| j_job_id := j_job_id j; j_url := j_url j; j_status := j_status j;
     j_created_at := j_created_at j; j_completed_at := v;
     j_result := j_result j; j_error := j_error j |}.

Definition with_result (v : JobResult) (j : Job) : Job :=
  {| j_job_id := j_job_id j; j_url := j_url j; j_status := j_status j;
     j_created_at := j_created_at j; j_completed_at := j_completed_at j;
     j_result := v; j_error := j_error j |}.

Definition with_error (v : option string) (j : Job) : Job :=
  {| j_job_id := j_job_id j; j_url := j_url j; j_status := j_status j;
     j_created_at := j_created_at j; j_completed_at := j_completed_at j;
     j_result := j_result j; j_error := v |}.

(** [jobs_store], the module-level dict. *)
Abbreviation JobsStore := (gmap string Job).

(** Code that reads and writes [jobs_store] and may raise; the store
    survives an exception. *)
Definition J (A : Type) : Type := JobsStore -> JobsStore * outcome A.

Definition jret {A : Type} (a : A) : J A := fun store => (store, Return a).

Definition jraise {A : Type} (e : PyExc) : J A :=
  fun store => (store, Raise e).

Definition jbind {A B : Type} (m : J A) (k : A -> J B) : J B :=
  fun store =>
    match m store with
    | (store', Return a) => k a store'
    | (store', Raise e) => (store', Raise e)
    end.

(** [try: m  except Exception as e: handler(e)], for code that ends with
    a value or an [Exception]; see [try_except_exception] for a
    [BaseException] at an await. *)
Definition try_except {A : Type} (m : J A) (handler : PyExc -> J A) : J A :=
  fun store =>
    match m store with
    | (store', Return a) => (store', Return a)
    | (store', Raise e) => handler e store'
    end.

#[local] Notation "'let*' x <- m ;; k" := (jbind m (fun x => k))
  (at level 10, x name, m at level 99, k at level 200).

(** [jobs_store[job_id][key] = v], with [f] the update of that key. *)
Definition setitem (job_id : string) (f : Job -> Job) : J unit :=
  fun store =>
    match store !! job_id with
    | Some job => (<[job_id := f job]> store, Return tt)
    | None => (store, Raise (KeyError job_id))
    end.

(** What [graph.invoke] returns, as far as main.py reads it: the value
    under ["result"], if that key is there. *)
Definition GraphResult : Type := option Output.

(** [result.get("result", {})] *)
Definition result_or_empty (result : GraphResult) : JobResult :=
  match result with
  | Some output => ResultOutput output
  | None => ResultEmpty
  end.

Definition job_result_truthy (r : JobResult) : option Output :=
  match r with
  | ResultOutput output => Some output
  | ResultNone | ResultEmpty => None
  end.

Section Endpoints.
(** [str(e)]; the f-string rendering of a [JobStatus]; the construction
    [ScrapeResultResponse] on the keys of a dict [d], which validates [d]. *)
Variable str_exc : PyExc -> string.
Variable format_status : JobStatus -> string.
Variable ScrapeResultResponse : Output -> outcome Output.

(** [run_scraping_job]. [graph_invoke] is the outcome of
    [graph.invoke] (agent/agent.py); [meanwhile] is what other
    coroutines do to the store while this one awaits the thread;
    [now] is [datetime.utcnow().isoformat()]. *)
Definition run_scraping_job (job_id url : string)
    (graph_invoke : outcome GraphResult)
    (meanwhile : JobsStore -> JobsStore) (now : string) : J unit :=
  try_except
    (let* _ <- setitem job_id (with_status RUNNING) ;;
     let* result <- (fun store => (meanwhile store, graph_invoke)) ;;
     let* _ <- setitem job_id (with_status COMPLETED) ;;
     let* _ <- setitem job_id (with_completed_at (Some now)) ;;
     setitem job_id (with_result (result_or_empty result)))
    (fun e =>
       let* _ <- setitem job_id (with_status FAILED) ;;
       let* _ <- setitem job_id (with_completed_at (Some now)) ;;
       setitem job_id (with_error (Some (str_exc e)))).

(** [create_scrape_job], with the fresh uuid and the time as inputs. *)
Definition create_scrape_job (job_id url_str now : string) : J Job :=
  fun store =>
    let job :=
      {| j_job_id := job_id; j_url := url_str; j_status := PENDING;
         j_created_at := now; j_completed_at := None;
         j_result := ResultNone; j_error := None |} in
    (<[job_id := job]> store, Return job).

Definition get_job_status (job_id : string) : J Job :=
  fun store =>
    match store !! job_id with
    | None => (store, Raise (HTTPException 404 "Job not found"))
    | Some job => (store, Return job)
    end.

(** [f"{job.get('error', 'Unknown error')}"]: the key is always there. *)
Definition format_error (e : option string) : string :=
  match e with
  | Some msg => msg
  | None => "None"
  end.

Definition get_job_result (job_id : string) : J Output :=
  fun store =>
    match store !! job_id with
    | None => (store, Raise (HTTPException 404 "Job not found"))
    | Some job =>
        match j_status job with
        | PENDING | RUNNING =>
            (store,
             Raise (HTTPException 425
                      ("Job is still " +:+ format_status (j_status job)
                       +:+ ". Please wait for completion.")))
        | FAILED =>
            (store,
             Raise (HTTPException 500
                      ("Job failed: " +:+ format_error (j_error job))))
        | COMPLETED =>
            match job_result_truthy (j_result job) with
            | None =>
                (store,
                 Raise (HTTPException 404 "No result found for this job"))
            | Some output => (store, ScrapeResultResponse output)
            end
        end
    end.

Definition scrape_sync (graph_invoke : outcome GraphResult)
  : outcome Output :=
  let body :=
    match graph_invoke with
    | Raise e => Raise e
    | Return None =>
        Raise (HTTPException 500
                 "Scraping completed but no data was returned")
    | Return (Some output) => ScrapeResultResponse output
    end in
  match body with
  | Return response => Return response
  | Raise e =>
      Raise (HTTPException 500 ("Scraping failed: " +:+ str_exc e))
  end.

(** The body of [delete_job]: a message and the job id. *)
Definition delete_job (job_id : string) : J (string * string) :=
  fun store =>
    match store !! job_id with
    | None => (store, Raise (HTTPException 404 "Job not found"))
    | Some _ =>
        (delete job_id store, Return ("Job deleted successfully", job_id))
    end.

End Endpoints.

(** *** list_jobs *)

(** [job["status"] == status] *)
Definition JobStatus_eqb (a b : JobStatus) : bool :=
  match a, b with
  | PENDING, PENDING | RUNNING, RUNNING
  | COMPLETED, COMPLETED | FAILED, FAILED => true
  | _, _ => false
  end.

(** [jobs.sort(key=lambda x: x["created_at"], reverse=True)]: the sort is
    stable, also when reversed, so a job goes before the jobs sorted so far
    unless one of them is strictly later. *)
Fixpoint insert_desc (job : Job) (sorted : list Job) : list Job :=
  match sorted with
  | [] => [job]
  | k :: rest =>
      if String.ltb (j_created_at job) (j_created_at k)
      then k :: insert_desc job rest
      else job :: sorted
  end.

Fixpoint sort_created_desc (jobs : list Job) : list Job :=
  match jobs with
  | [] => []
  | job :: rest => insert_desc job (sort_created_desc rest)
  end.

(** The body of [list_jobs]. [values] is [list(jobs_store.values())], the
    jobs in the order they were inserted; [limit] has passed the check of
    [Query(ge=1, le=100)]. The result is [total] and [jobs]. *)
Definition list_jobs (status : option JobStatus) (limit : Z)
    (values : list Job) : Z * list Job :=
  let jobs := values in
  let jobs :=
    match status with
    | Some wanted =>
        List.filter (fun job => JobStatus_eqb (j_status job) wanted) jobs
    | None => jobs
    end in
  let jobs := sort_created_desc jobs in
  let jobs := py_slice_to jobs limit in
  (Z.of_nat (length jobs), jobs).

(** [a] is listed before [b]: [b] was not created later than [a]. *)
Definition created_not_before (a b : Job) : Prop :=
  String.leb (j_created_at b) (j_created_at a) = true.

(** *** Cancellation at an await *)

(** A [BaseException] that is not an [Exception]: [except Exception] does
    not catch it. [asyncio.CancelledError] is raised at the [await] of a
    task that is cancelled. *)
Inductive BaseOnly : Type := CancelledError | KeyboardInterrupt | SystemExit.

(** What [await asyncio.to_thread(graph.invoke, ...)] gives the coroutine:
    what the call returned or the [Exception] it raised, or a
    [BaseException] raised at the await. *)
Inductive awaited (A : Type) : Type :=
| Resumed (o : outcome A)
| Interrupted (b : BaseOnly).
Arguments Resumed {A} o.
Arguments Interrupted {A} b.

(** How a coroutine ends: with a value or an [Exception], or with a
    [BaseException] that went through its handlers. *)
Inductive ending (A : Type) : Type :=
| Ended (o : outcome A)
| Escaped (b : BaseOnly).
Arguments Ended {A} o.
Arguments Escaped {A} b.

Definition T (A : Type) : Type := JobsStore -> JobsStore * ending A.

Definition of_J {A : Type} (m : J A) : T A :=
  fun store => let '(store', o) := m store in (store', Ended o).

Definition tbind {A B : Type} (m : T A) (k : A -> T B) : T B :=
  fun store =>
    match m store with
    | (store', Ended (Return a)) => k a store'
    | (store', Ended (Raise e)) => (store', Ended (Raise e))
    | (store', Escaped b) => (store', Escaped b)
    end.

(** [try: m  except Exception as e: handler(e)], where [m] may also end
    with a [BaseException], which is not caught. *)
Definition try_except_exception {A : Type} (m : T A)
    (handler : PyExc -> T A) : T A :=
  fun store =>
    match m store with
    | (store', Ended (Raise e)) => handler e store'
    | (store', Ended (Return a)) => (store', Ended (Return a))
    | (store', Escaped b) => (store', Escaped b)
    end.

(** The await: the other coroutines run on the store, then the coroutine
    gets [a]. *)
Definition await_thread {A : Type} (a : awaited A)
    (meanwhile : JobsStore -> JobsStore) : T A :=
  fun store =>
    (meanwhile store,
     match a with
     | Resumed o => Ended o
     | Interrupted b => Escaped b
     end).

#[local] Notation "'let!' x <- m ;; k" := (tbind m (fun x => k))
  (at level 10, x name, m at level 99, k at level 200).

Section Tasks.
Variable str_exc : PyExc -> string.
Variable ScrapeResultResponse : Output -> outcome Output.

(** [run_scraping_job] as a task that can be interrupted at its await. *)
Definition run_scraping_job_task (job_id url : string)
    (a : awaited GraphResult)
    (meanwhile : JobsStore -> JobsStore) (now : string) : T unit :=
  try_except_exception
    (let! _ <- of_J (setitem job_id (with_status RUNNING)) ;;
     let! result <- await_thread a meanwhile ;;
     let! _ <- of_J (setitem job_id (with_status COMPLETED)) ;;
     let! _ <- of_J (setitem job_id (with_completed_at (Some now))) ;;
     of_J (setitem job_id (with_result (result_or_empty result))))
    (fun e =>
       let! _ <- of_J (setitem job_id (with_status FAILED)) ;;
       let! _ <- of_J (setitem job_id (with_completed_at (Some now))) ;;
       of_J (setitem job_id (with_error (Some (str_exc e))))).

(** [scrape_sync] as a task that can be interrupted at its await. *)
Definition scrape_sync_task (a : awaited GraphResult) : ending Output :=
  let body : ending Output :=
    match a with
    | Interrupted b => Escaped b
    | Resumed (Raise e) => Ended (Raise e)
    | Resumed (Return None) =>
        Ended (Raise (HTTPException 500
                        "Scraping completed but no data was returned"))
    | Resumed (Return (Some output)) => Ended (ScrapeResultResponse output)
    end in
  match body with
  | Ended (Return response) => Ended (Return response)
  | Ended (Raise e) =>
      Ended (Raise (HTTPException 500 ("Scraping failed: " +:+ str_exc e)))
  | Escaped b => Escaped b
  end.

End Tasks.

End Main.

(** ** The retry supervisor and the pipeline state machine *)

Module Supervisor.
Import Nodes.

Inductive Stage : Type := Discover | FetchBatch | Summarize | Persist.

Inductive Loc : Type :=
| AtStage (X : Stage)
| ErrorHandler
| Done
| Aborted.

(** Modelled from the spec: the stage identifiers [CRAWL], [SCRAP],
    [FORMAT] and [SAVE] of agent/utils/constants.py, which is not under
    src/. The [failedStage] of the spec is the string [failed_node]
    holding one of them. *)
Record Constants : Type := {
  CRAWL : string;
  SCRAP : string;
  FORMAT : string;
  SAVE : string
}.

Definition identifier (K : Constants) (X : Stage) : string :=
  match X with
  | Discover => CRAWL K
  | FetchBatch => SCRAP K
  | Summarize => FORMAT K
  | Persist => SAVE K
  end.

Definition stage_of_identifier (K : Constants) (name : string)
  : option Stage :=
  if String.eqb name (CRAWL K) then Some Discover
  else if String.eqb name (SCRAP K) then Some FetchBatch
  else if String.eqb name (FORMAT K) then Some Summarize
  else if String.eqb name (SAVE K) then Some Persist
  else None.

(** A pipeline run: where it is, its state, and the result payload. *)
Record Config : Type := {
  loc : Loc;
  st : GraphState;
  payload : option Output
}.

(** Modelled from the spec: what [try_except_decorator]
    (agent/utils/helpers.py, not under src/) does once the stage
    succeeded. Section 3: [lastError], [failedStage] and [retryCount] are
    cleared on every successful stage transition. *)
Definition clear_failure (s : GraphState) : GraphState :=
  set_retry_count 0 (set_failed_node "" (set_error "" s)).

(** Modelled from the spec: what [try_except_decorator] does on a fault.
    Section 4.6: [failedStage] becomes the stage identifier, [lastError]
    the fault description, and the state is otherwise untouched. *)
Definition record_failure (identifier : string) (description : string)
    (s : GraphState) : GraphState :=
  set_failed_node identifier (set_error description s).

(** Modelled from the spec: the transition table of section 4.6 (the
    graph of agent/agent.py is not under src/), column "on success". *)
Definition next_on_success (X : Stage) (s : GraphState) : Loc :=
  match X with
  | Discover | Summarize =>
      if list_truthy (url_batches s)
      then AtStage FetchBatch
      else AtStage Persist
  | FetchBatch => AtStage Summarize
  | Persist => Done
  end.

Section Pipeline.
Context {World : Type} (cap : Capabilities World).
Variable K : Constants.
(** [str(e)], and the retry budget, whose value the spec leaves open. *)
Variable str_exc : PyExc -> string.
Variable retry_budget : Z.

(** The body of a stage from nodes.py, returning the next state and
    the payload, if any. *)
Definition stage_body (X : Stage) (s : GraphState)
  : M World (GraphState * option Output) :=
  match X with
  | Discover => bind (crawl cap s) (fun s' => ret (s', None))
  | FetchBatch => bind (scrap cap s) (fun s' => ret (s', None))
  | Summarize => bind (format cap s) (fun s' => ret (s', None))
  | Persist =>
      bind (save cap s)
           (fun r => match r with
                     | ResultDict output => ret (s, Some output)
                     | StateDict s' => ret (s', None)
                     end)
  end.

(** Modelled from the spec: one transition of the pipeline (section
    4.6). A stage runs under the supervisor; the error handler is
    [error_handler] of nodes.py, followed by re-entry into the failed
    stage, or by [Aborted] once the count exceeds the budget. *)
Definition step (c : Config) (w : World)
  : option (list Event * Config * World) :=
  match loc c with
  | AtStage X =>
      let r := stage_body X (st c) w in
      let c' :=
        match value r with
        | Return (s', output) =>
            {| loc := next_on_success X s';
               st := clear_failure s';
               payload := output |}
        | Raise e =>
            {| loc := ErrorHandler;
               st := record_failure (identifier K X) (str_exc e) (st c);
               payload := payload c |}
        end in
      Some (trace r, c', world r)
  | ErrorHandler =>
      let s' := error_handler (st c) in
      if retry_budget <? retry_count s'
      then Some ([], {| loc := Aborted; st := s'; payload := payload c |}, w)
      else
        match stage_of_identifier K (failed_node s') with
        | Some X =>
            Some ([], {| loc := AtStage X; st := s'; payload := payload c |},
                  w)
        | None => None
        end
  | Done | Aborted => None
  end.

(** Initialize, then Discover. *)
Definition start (input : InputState) : Config :=
  {| loc := AtStage Discover; st := initialize input; payload := None |}.

Inductive Reachable (input : InputState) (w0 : World)
  : Config -> World -> Prop :=
| reach_start : Reachable input w0 (start input) w0
| reach_step c w tr c' w' :
    Reachable input w0 c w ->
    step c w = Some (tr, c', w') ->
    Reachable input w0 c' w'.

End Pipeline.

(** What holds of every configuration of a run: the count is not
    negative; at a stage, a positive count means this stage is the
    failed one being retried; the error handler is entered with a failed
    stage recorded. *)
Definition retry_invariant (K : Constants) (c : Config) : Prop :=
  0 <= retry_count (st c)
  /\ match loc c with
     | AtStage X =>
         0 < retry_count (st c) -> failed_node (st c) = identifier K X
     | ErrorHandler => exists X, failed_node (st c) = identifier K X
     | Done | Aborted => True
     end.

End Supervisor.

(** ** Concrete inputs *)

Module Examples.
Import Nodes Main Supervisor.

(** A [json.loads] that parses what [loads] parses and raises
    [JSONDecodeError] on the rest. *)
Definition decoder (loads : string -> option Json) (s : string)
  : outcome Json :=
  match loads s with
  | Some value => Return value
  | None => Raise (JSONDecodeError "Expecting value")
  end.

(** Services over a world with nothing in it: the batch call answers
    [batch], the model answers [reply], [json.loads] is [decoder loads]. *)
Definition cap_with (batch : outcome BatchScrapeJob)
    (reply : outcome (option AIMessage)) (loads : string -> option Json)
  : Capabilities unit :=
  {| firecrawl_crawl := fun _ w => (Return {| cj_data := NoAttr |}, w);
     firecrawl_batch_scrape := fun _ w => (batch, w);
     llm_invoke := fun _ w => (reply, w);
     write_json := fun _ _ w => (Return tt, w);
     is_valid_url := fun _ _ => true;
     getenv_int := fun _ => Return 2;
     json_loads := decoder loads |}.

(** A stand-in for [json.loads] that accepts the empty object only. *)
Definition loads_empty_object (s : string) : option Json :=
  if String.eqb s "{}" then Some (JObj []) else None.

Definition page (link markdown : string) : Document :=
  {| doc_metadata := Attr {| md_url := Attr link |};
     doc_markdown := Attr markdown;
     doc_links := NoAttr |}.

Definition page_a : Document := page "https://example.com/a" "Hello world".

(** A page of 2500 characters. *)
Definition long_markdown : string :=
  string_of_list_ascii (repeat "x"%char 2500).
Definition page_long : Document := page "https://example.com/l" long_markdown.

Definition state_one_batch : GraphState :=
  {| url := "https://example.com";
     url_batches := [["https://example.com/a"]];
     scraped_data := [];
     formatted_data := [];
     error := "";
     retry_count := 0;
     failed_node := "" |}.

Definition no_data : BatchScrapeJob := {| bs_data := Attr [] |}.
Definition one_page : BatchScrapeJob := {| bs_data := Attr [page_a] |}.

Definition empty_reply : outcome (option AIMessage) :=
  Return (Some {| content := "" |}).
Definition prose_reply : outcome (option AIMessage) :=
  Return (Some {| content := "Sorry, I cannot summarise this." |}).

Definition state_fetched (pages : list Document) : GraphState :=
  set_scraped_data pages state_one_batch.

Definition meta_a : Metadata := {| md_url := Attr "https://example.com/a" |}.

Definition pending_job : Main.Job :=
  {| Main.j_job_id := "job-1";
     Main.j_url := "https://example.com/";
     Main.j_status := Main.PENDING;
     Main.j_created_at := "2026-01-01T00:00:00";
     Main.j_completed_at := None;
     Main.j_result := Main.ResultNone;
     Main.j_error := None |}.

Definition failed_job : Main.Job :=
  Main.with_error (Some "quota exceeded")
    (Main.with_status Main.FAILED pending_job).

Definition store_pending : gmap string Main.Job :=
  {[ "job-1" := pending_job ]}.

(** A discovery service that is down. *)
Definition cap_crawl_down : Capabilities unit :=
  {| firecrawl_crawl := fun _ w => (Raise (OtherError "timeout"), w);
     firecrawl_batch_scrape := fun _ w => (Return no_data, w);
     llm_invoke := fun _ w => (empty_reply, w);
     write_json := fun _ _ w => (Return tt, w);
     is_valid_url := fun _ _ => true;
     getenv_int := fun _ => Return 2;
     json_loads := decoder (fun _ => None) |}.

Definition stage_names : Supervisor.Constants :=
  {| Supervisor.CRAWL := "crawl"; Supervisor.SCRAP := "scrap";
     Supervisor.FORMAT := "format"; Supervisor.SAVE := "save" |}.

Definition describe (e : PyExc) : string :=
  match e with
  | HTTPException _ msg | KeyError msg | ValueError msg
  | TypeError msg | JSONDecodeError msg | RecursionError msg
  | OtherError msg => msg
  end.

Definition seed : InputState := {| in_url := Some "https://example.com" |}.

(** The run after Discover faulted once, and after the error handler. *)
Definition after_fault : Supervisor.Config :=
  {| Supervisor.loc := Supervisor.ErrorHandler;
     Supervisor.st :=
       Supervisor.record_failure "crawl" "timeout" (initialize seed);
     Supervisor.payload := None |}.

Definition after_handler : Supervisor.Config :=
  {| Supervisor.loc := Supervisor.AtStage Supervisor.Discover;
     Supervisor.st := error_handler (Supervisor.st after_fault);
     Supervisor.payload := None |}.

(** A seed page with four links, one of them not a valid URL; at most
    three URLs are kept, two to a batch. *)
Definition seed_links : list string :=
  ["https://example.com/a"; "mailto:x"; "https://example.com/b";
   "https://example.com/c"].

Definition seed_doc : Document :=
  {| doc_metadata := NoAttr; doc_markdown := NoAttr;
     doc_links := Attr seed_links |}.

Definition seed_crawl : CrawlJob := {| cj_data := Attr [seed_doc] |}.

Definition cap_crawl_links : Capabilities unit :=
  {| firecrawl_crawl := fun _ w => (Return seed_crawl, w);
     firecrawl_batch_scrape := fun _ w => (Return one_page, w);
     llm_invoke := fun _ w => (prose_reply, w);
     write_json := fun _ _ w => (Return tt, w);
     is_valid_url := fun u _ => negb (String.eqb u "mailto:x");
     getenv_int :=
       fun name => if String.eqb name "URL_LIMIT" then Return 3 else Return 2;
     json_loads := decoder loads_empty_object |}.

(** A stand-in for [json.loads] that accepts the number 42 only, and a
    model that answers with it. *)
Definition loads_number (s : string) : option Json :=
  if String.eqb s "42" then Some (JNum 42) else None.

Definition number_reply : outcome (option AIMessage) :=
  Return (Some {| content := "42" |}).

(** A page without metadata. *)
Definition page_bare : Document :=
  {| doc_metadata := NoAttr; doc_markdown := Attr "text"; doc_links := NoAttr |}.

(** A reply of 1000 opening brackets, and a [json.loads] that raises
    [RecursionError] on it, as the one of CPython does. *)
Definition deep_content : string :=
  string_of_list_ascii (repeat "["%char 1000).

Definition deep_message : string :=
  "maximum recursion depth exceeded while decoding a JSON array from a unicode string".

Definition cap_deep_reply : Capabilities unit :=
  {| firecrawl_crawl := fun _ w => (Return {| cj_data := NoAttr |}, w);
     firecrawl_batch_scrape := fun _ w => (Return one_page, w);
     llm_invoke := fun _ w => (Return (Some {| content := deep_content |}), w);
     write_json := fun _ _ w => (Return tt, w);
     is_valid_url := fun _ _ => true;
     getenv_int := fun _ => Return 2;
     json_loads :=
       fun s =>
         if String.eqb s deep_content
         then Raise (RecursionError deep_message)
         else decoder (fun _ => None) s |}.

End Examples.

(** * Properties *)

Import Nodes.

(** ** Batch planning *)

Section PlanBatches.
Context {A : Type}.
Implicit Types (l : list A) (B i : Z).

Lemma py_slice_chunk l i B :
  0 <= i -> 1 <= B ->
  py_slice l i (i + B) = take (Z.to_nat B) (drop (Z.to_nat i) l).
Proof.
  intros Hi HB. unfold py_slice, clamp_index.
  assert (Hi' : (i <? 0) = false) by (apply Z.ltb_ge; lia).
  assert (HiB : (i + B <? 0) = false) by (apply Z.ltb_ge; lia).
  rewrite Hi', HiB.
  set (n := Z.of_nat (length l)).
  destruct (Z.le_gt_cases n i) as [Hge | Hlt].
  - rewrite !Z.min_r by lia.
    rewrite (drop_ge l (Z.to_nat n)) by (subst n; lia).
    rewrite (drop_ge l (Z.to_nat i)) by (subst n; lia).
    by rewrite !take_nil.
  - rewrite (Z.min_l i n) by lia.
    destruct (Z.le_gt_cases (i + B) n) as [Hfit | Hover].
    + rewrite Z.min_l by lia. f_equal. lia.
    + rewrite Z.min_r by lia.
      rewrite !take_ge; [done | |]; rewrite length_drop; subst n; lia.
Qed.

Lemma range_up_chunks l B (HB : 1 <= B) :
  forall fuel i,
    0 <= i ->
    (Z.to_nat (Z.of_nat (length l) - i) <= fuel)%nat ->
    concat (map (fun j => py_slice l j (j + B))
                (range_up fuel i (Z.of_nat (length l)) B))
    = drop (Z.to_nat i) l.
Proof.
  induction fuel as [|fuel IH]; intros i Hi Hfuel; simpl.
  - rewrite drop_ge; [done | lia].
  - destruct (i <? Z.of_nat (length l)) eqn:Hlt.
    + apply Z.ltb_lt in Hlt. simpl.
      rewrite IH by lia.
      rewrite py_slice_chunk by lia.
      replace (Z.to_nat (i + B)) with (Z.to_nat i + Z.to_nat B)%nat by lia.
      rewrite <- drop_drop. apply take_drop.
    + apply Z.ltb_ge in Hlt. simpl. rewrite drop_ge; [done | lia].
Qed.

Lemma range_up_chunk_sizes l B (HB : 1 <= B) :
  forall fuel i,
    0 <= i ->
    Forall (fun b : list A => b <> [] /\ Z.of_nat (length b) <= B)
           (map (fun j => py_slice l j (j + B))
                (range_up fuel i (Z.of_nat (length l)) B)).
Proof.
  induction fuel as [|fuel IH]; intros i Hi; simpl; [constructor|].
  destruct (i <? Z.of_nat (length l)) eqn:Hlt; simpl; [|constructor].
  apply Z.ltb_lt in Hlt. constructor; [|apply IH; lia].
  rewrite py_slice_chunk by lia. split.
  - intros Hnil. apply (f_equal length) in Hnil.
    rewrite length_take, length_drop in Hnil. simpl in Hnil. lia.
  - rewrite length_take. lia.
Qed.

Lemma range_up_length (n B : Z) (HB : 1 <= B) :
  forall fuel i,
    0 <= i ->
    (Z.to_nat (n - i) <= fuel)%nat ->
    Z.of_nat (length (range_up fuel i n B)) = Z.max 0 (ceil_div (n - i) B).
Proof.
  unfold ceil_div.
  induction fuel as [|fuel IH]; intros i Hi Hfuel; simpl.
  - assert ((n - i + B - 1) / B <= 0); [|lia].
    apply Z.lt_succ_r. apply Z.div_lt_upper_bound; lia.
  - destruct (i <? n) eqn:Hlt.
    + apply Z.ltb_lt in Hlt. simpl length. rewrite Nat2Z.inj_succ.
      rewrite IH by lia.
      replace (n - i + B - 1) with ((n - (i + B) + B - 1) + 1 * B) by lia.
      rewrite Z.div_add by lia.
      assert (0 <= (n - (i + B) + B - 1) / B); [|lia].
      apply Z.div_pos; lia.
    + apply Z.ltb_ge in Hlt. simpl.
      assert ((n - i + B - 1) / B <= 0); [|lia].
      apply Z.lt_succ_r. apply Z.div_lt_upper_bound; lia.
Qed.

End PlanBatches.

(** C5. For a non-empty URL sequence and a batch size of at least 1, batch
    planning returns batches whose concatenation in order is the input,
    each batch is non-empty and no longer than the batch size, and there
    are ceil(len / batchSize) batches. *)
Theorem plan_batches_partition (urls : list string) (B : Z) :
  urls <> [] -> 1 <= B ->
  exists batches,
    plan_batches urls B = Return batches
    /\ concat batches = urls
    /\ Forall (fun b => b <> [] /\ Z.of_nat (length b) <= B) batches
    /\ Z.of_nat (length batches) = ceil_div (Z.of_nat (length urls)) B.
Proof.
  intros Hne HB. unfold plan_batches, py_range.
  assert (HB0 : (B =? 0) = false) by (apply Z.eqb_neq; lia).
  assert (HBpos : (0 <? B) = true) by (apply Z.ltb_lt; lia).
  rewrite HB0, HBpos. eexists. split; [reflexivity|].
  split; [|split].
  - rewrite range_up_chunks by lia. done.
  - apply range_up_chunk_sizes; lia.
  - rewrite length_map, (range_up_length _ _ HB) by lia.
    rewrite Z.sub_0_r. unfold ceil_div.
    assert (0 <= (Z.of_nat (length urls) + B - 1) / B); [|lia].
    apply Z.div_pos; lia.
Qed.

Lemma plan_batches_partition_witness :
  exists batches,
    plan_batches ["a"; "b"; "c"] 2 = Return batches
    /\ concat batches = ["a"; "b"; "c"]
    /\ Forall (fun b => b <> [] /\ Z.of_nat (length b) <= 2) batches
    /\ Z.of_nat (length batches) = ceil_div (Z.of_nat 3) 2.
Proof.
  apply (plan_batches_partition ["a"; "b"; "c"] 2); [discriminate | lia].
Defined.

Example plan_batches_abc :
  plan_batches ["a"; "b"; "c"] 2 = Return [["a"; "b"]; ["c"]].
Proof. reflexivity. Qed.

Example plan_batches_zero : exists e, plan_batches ["a"] 0 = Raise e.
Proof. eexists. reflexivity. Qed.

(** ** FetchBatch: [scrap] *)

Section Scrap.
Context {World : Type} (cap : Capabilities World).

Lemma scrap_run (state : GraphState) (w : World) batch rest job w' :
  url_batches state = batch :: rest ->
  firecrawl_batch_scrape cap batch w = (Return job, w') ->
  scrap cap state w =
    {| trace := [EvBatchScrape batch];
       world := w';
       value :=
         Return
           (if data_truthy (getattr_or (bs_data job) (Some []))
            then set_scraped_data
                   (default [] (getattr_or (bs_data job) (Some [])))
                   (set_url_batches rest state)
            else set_scraped_data [] state) |}.
Proof.
  intros Hb Hcall. unfold scrap, bind, call. rewrite Hb, Hcall. simpl.
  destruct (data_truthy _); reflexivity.
Qed.

End Scrap.

(** C1, as the code has it. When the batch call returns, [scrap] makes one
    call for the first batch; it removes that batch exactly when the call
    returned data, and [scraped_data] becomes that data; when the call
    returned no data, [scraped_data] becomes empty and [url_batches] is
    left as it was, the batch still first. *)
Theorem scrap_pops_batch_only_with_data
    {World : Type} (cap : Capabilities World)
    (state : GraphState) (w : World) batch rest job w' :
  url_batches state = batch :: rest ->
  firecrawl_batch_scrape cap batch w = (Return job, w') ->
  exists state',
    value (scrap cap state w) = Return state'
    /\ trace (scrap cap state w) = [EvBatchScrape batch]
    /\ (forall pages,
          getattr_or (bs_data job) (Some []) = Some pages -> pages <> [] ->
          url_batches state' = rest /\ scraped_data state' = pages)
    /\ (data_truthy (getattr_or (bs_data job) (Some [])) = false ->
          url_batches state' = batch :: rest /\ scraped_data state' = []).
Proof.
  intros Hb Hcall. rewrite (scrap_run cap state w batch rest job w' Hb Hcall).
  eexists. split; [reflexivity|]. split; [reflexivity|]. split.
  - intros pages Hdata Hne. rewrite Hdata.
    destruct pages as [|p pages]; [done|]. simpl. done.
  - intros Hfalse. rewrite Hfalse. simpl. done.
Qed.

Lemma scrap_pops_batch_only_with_data_witness :
  exists state',
    value (scrap (Examples.cap_with (Return Examples.one_page)
                    Examples.empty_reply (fun _ => None))
                 Examples.state_one_batch tt) = Return state'
    /\ trace (scrap (Examples.cap_with (Return Examples.one_page)
                       Examples.empty_reply (fun _ => None))
                    Examples.state_one_batch tt)
       = [EvBatchScrape ["https://example.com/a"]]
    /\ (forall pages,
          getattr_or (bs_data Examples.one_page) (Some []) = Some pages ->
          pages <> [] ->
          url_batches state' = [] /\ scraped_data state' = pages)
    /\ (data_truthy (getattr_or (bs_data Examples.one_page) (Some [])) = false ->
          url_batches state' = [["https://example.com/a"]]
          /\ scraped_data state' = []).
Proof.
  apply (scrap_pops_batch_only_with_data
           (Examples.cap_with (Return Examples.one_page)
              Examples.empty_reply (fun _ => None))
           Examples.state_one_batch tt
           ["https://example.com/a"] [] Examples.one_page tt);
    reflexivity.
Defined.

(** C1, as the spec has it, fails: with one planned batch and a batch call
    that returns no data, [scrap] returns normally, [scraped_data] is
    empty, and the batch is still in [url_batches]. *)
Lemma scrap_no_data_keeps_batch :
  url_batches Examples.state_one_batch <> []
  /\ exists state',
      value (scrap (Examples.cap_with (Return Examples.no_data)
                      Examples.empty_reply (fun _ => None))
                   Examples.state_one_batch tt) = Return state'
      /\ scraped_data state' = []
      /\ url_batches state' = [["https://example.com/a"]]
      /\ url_batches state' <> tail (url_batches Examples.state_one_batch).
Proof.
  split; [discriminate|].
  eexists. split; [reflexivity|]. simpl. repeat split. discriminate.
Qed.

(** ** Summarize: [format] *)

Lemma str_take_length (n : nat) (s : string) :
  String.length (str_take n s) = Nat.min n (String.length s).
Proof.
  revert s. induction n as [|n IH]; intros [|c s]; simpl; auto.
Qed.

Lemma str_truthy_true (s : string) : str_truthy s = true <-> s <> "".
Proof. destruct s; simpl; split; intros; congruence. Qed.

Lemma truncate_markdown_long (md : string) :
  (2000 < String.length md)%nat -> truncate_markdown md = str_take 2000 md.
Proof.
  intros Hlen. unfold truncate_markdown.
  destruct md as [|c md]; [simpl in Hlen; lia|].
  simpl str_truthy. apply Nat.ltb_lt in Hlen. by rewrite Hlen.
Qed.

Lemma truncate_markdown_short (md : string) :
  (String.length md <= 2000)%nat -> truncate_markdown md = md.
Proof.
  intros Hlen. unfold truncate_markdown.
  apply Nat.ltb_ge in Hlen. rewrite Hlen. by rewrite andb_false_r.
Qed.

Lemma truncate_markdown_bound (md : string) :
  (String.length (truncate_markdown md) <= 2000)%nat.
Proof.
  destruct (Nat.lt_ge_cases 2000 (String.length md)) as [Hlong | Hshort].
  - rewrite truncate_markdown_long by done. rewrite str_take_length. lia.
  - by rewrite truncate_markdown_short.
Qed.

Lemma bind_ret_trace {World A B : Type} (m : M World A) (f : A -> B) w :
  trace (bind m (fun a => ret (f a)) w) = trace (m w).
Proof.
  unfold bind. destruct (value (m w)); simpl; [apply app_nil_r | done].
Qed.

Section Format.
Context {World : Type} (cap : Capabilities World).

Lemma format_item_run p m md acc w reply w' :
  summarizable p m md ->
  llm_invoke cap (prompt (truncate_markdown md)) w = (reply, w') ->
  format_item cap p acc w =
    {| trace := [EvLlmInvoke (prompt (truncate_markdown md))];
       world := w';
       value := after_reply cap (getattr_or (md_url m) (Some ""))
                                (truncate_markdown md) acc reply |}.
Proof.
  intros (Hm & Hmd & Hne) Hcall. unfold format_item.
  rewrite Hm, Hmd. apply str_truthy_true in Hne. rewrite Hne. simpl.
  unfold bind, call. rewrite Hcall. simpl.
  destruct reply as [[message|]|e]; simpl; try reflexivity.
  destruct (str_truthy (content message)); simpl; [|reflexivity].
  destruct (parse_response cap (content message)) as [parsed|e]; simpl;
    [by rewrite ?app_nil_r|].
  destruct (is_json_decode_error e); simpl; by rewrite ?app_nil_r.
Qed.

Lemma format_item_skip p acc w :
  (forall m md, ~ summarizable p m md) ->
  format_item cap p acc w = ret acc w.
Proof.
  intros Hno. unfold format_item.
  destruct (getattr_or (doc_metadata p) None) as [m|] eqn:Hm; [|done].
  destruct (getattr_or (doc_markdown p) (Some "")) as [md|] eqn:Hmd; [|done].
  destruct (str_truthy md) eqn:Ht; [|done].
  exfalso. apply (Hno m md). repeat split; try done.
  by apply str_truthy_true.
Qed.

Lemma summarizable_dec p :
  (exists m md, summarizable p m md) \/ (forall m md, ~ summarizable p m md).
Proof.
  unfold summarizable.
  destruct (getattr_or (doc_metadata p) None) as [m|];
    [|right; intros m md (H & _); done].
  destruct (getattr_or (doc_markdown p) (Some "")) as [md|];
    [|right; intros m' md (_ & H & _); done].
  destruct md as [|c md].
  - right. intros m' md' (_ & H & Hne). congruence.
  - left. exists m, (String c md). done.
Qed.

Lemma summarizable_markdown p m md :
  summarizable p m md -> doc_markdown p = Attr md.
Proof.
  intros (_ & Hmd & Hne). destruct (doc_markdown p); simpl in Hmd; congruence.
Qed.

Lemma format_loop_cons p rest acc w :
  format_loop cap (p :: rest) acc w
  = bind (format_item cap p acc) (fun acc' => format_loop cap rest acc') w.
Proof. reflexivity. Qed.

(** The loop only ever appends. *)
Lemma format_loop_extends l :
  forall acc w out,
    value (format_loop cap l acc w) = Return out ->
    exists more, out = acc ++ more.
Proof.
  induction l as [|p rest IH]; intros acc w out Hout.
  - simpl in Hout. injection Hout as <-. exists []. by rewrite app_nil_r.
  - rewrite format_loop_cons in Hout.
    destruct (summarizable_dec p) as [(m & md & Hs) | Hno].
    + destruct (llm_invoke cap (prompt (truncate_markdown md)) w)
        as [reply w'] eqn:Hcall.
      unfold bind in Hout.
      rewrite (format_item_run p m md acc w reply w' Hs Hcall) in Hout.
      simpl in Hout. unfold after_reply in Hout.
      destruct reply as [[message|]|e]; simpl in Hout; try done.
      * destruct (negb (str_truthy (content message))); simpl in Hout;
          [by apply IH in Hout|].
        destruct (parse_response cap (content message)) as [parsed|e0];
          simpl in Hout;
          [|destruct (is_json_decode_error e0); simpl in Hout; [|done]];
          apply IH in Hout as [more ->]; rewrite <- app_assoc; eauto.
      * by apply IH in Hout.
    + unfold bind in Hout. rewrite (format_item_skip p acc w Hno) in Hout.
      simpl in Hout. by apply IH in Hout.
Qed.

(** Every call the loop makes sends the prompt built from the truncated
    markdown of one of its pages. *)
Lemma format_loop_trace l :
  forall acc w ev,
    ev ∈ trace (format_loop cap l acc w) ->
    exists p md,
      p ∈ l /\ doc_markdown p = Attr md
      /\ ev = EvLlmInvoke (prompt (truncate_markdown md)).
Proof.
  induction l as [|p rest IH]; intros acc w ev Hev.
  - simpl in Hev. by apply elem_of_nil in Hev.
  - rewrite format_loop_cons in Hev.
    destruct (summarizable_dec p) as [(m & md & Hs) | Hno].
    + destruct (llm_invoke cap (prompt (truncate_markdown md)) w)
        as [reply w'] eqn:Hcall.
      unfold bind in Hev.
      rewrite (format_item_run p m md acc w reply w' Hs Hcall) in Hev.
      simpl in Hev.
      assert (Hhead : ev = EvLlmInvoke (prompt (truncate_markdown md)) ->
                      exists p0 md0, p0 ∈ p :: rest /\ doc_markdown p0 = Attr md0
                        /\ ev = EvLlmInvoke (prompt (truncate_markdown md0))).
      { intros ->. exists p, md. split; [left|].
        split; [by eapply summarizable_markdown | done]. }
      destruct (after_reply _ _ _ acc reply) as [acc'|e]; simpl in Hev.
      * apply elem_of_cons in Hev as [Hev | Hev]; [by apply Hhead|].
        apply IH in Hev as (p0 & md0 & Hin & Hrest).
        exists p0, md0. split; [by right | done].
      * apply elem_of_cons in Hev as [Hev | Hev]; [by apply Hhead|].
        by apply elem_of_nil in Hev.
    + unfold bind in Hev. rewrite (format_item_skip p acc w Hno) in Hev.
      simpl in Hev. apply IH in Hev as (p0 & md0 & Hin & Hrest).
      exists p0, md0. split; [by right | done].
Qed.

End Format.

(** C3, as the code has it. When the model answers a summarizable page with
    nothing (no message, or a message with empty content), the iteration
    appends nothing for that page and the loop goes on with the next page;
    a batch of that one page leaves [formatted_data] empty. *)
Theorem format_skips_page_on_empty_reply
    {World : Type} (cap : Capabilities World)
    (p : Document) (m : Metadata) (md : string)
    (acc : list Entry) (rest : list Document) (w w' : World)
    (reply : option AIMessage) :
  summarizable p m md ->
  llm_invoke cap (prompt (truncate_markdown md)) w = (Return reply, w') ->
  (reply = None \/ exists message, reply = Some message /\ content message = "") ->
  value (format_item cap p acc w) = Return acc
  /\ value (format_loop cap (p :: rest) acc w)
     = value (format_loop cap rest acc w')
  /\ (forall state,
        scraped_data state = [p] ->
        value (format cap state w) = Return (set_formatted_data [] state)).
Proof.
  intros Hs Hcall Hempty.
  assert (Hitem : format_item cap p acc w =
                  {| trace := [EvLlmInvoke (prompt (truncate_markdown md))];
                     world := w'; value := Return acc |}).
  { rewrite (format_item_run cap p m md acc w (Return reply) w' Hs Hcall).
    destruct Hempty as [-> | (message & -> & Hc)]; simpl; [done|].
    by rewrite Hc. }
  split; [by rewrite Hitem|]. split.
  - rewrite format_loop_cons. unfold bind. rewrite Hitem. reflexivity.
  - intros state Hpages. unfold format. rewrite Hpages. simpl list_truthy.
    cbv iota. unfold bind at 1. rewrite format_loop_cons. unfold bind at 1.
    assert (Hitem0 : format_item cap p [] w =
                  {| trace := [EvLlmInvoke (prompt (truncate_markdown md))];
                     world := w'; value := Return [] |}).
    { rewrite (format_item_run cap p m md [] w (Return reply) w' Hs Hcall).
      destruct Hempty as [-> | (message & -> & Hc)]; simpl; [done|].
      by rewrite Hc. }
    rewrite Hitem0. reflexivity.
Qed.

Lemma format_skips_page_on_empty_reply_witness :
  value (format_item (Examples.cap_with (Return Examples.one_page)
                        Examples.empty_reply (fun _ => None))
                     Examples.page_a [] tt) = Return []
  /\ value (format_loop (Examples.cap_with (Return Examples.one_page)
                          Examples.empty_reply (fun _ => None))
                       [Examples.page_a; Examples.page_a] [] tt)
     = value (format_loop (Examples.cap_with (Return Examples.one_page)
                             Examples.empty_reply (fun _ => None))
                          [Examples.page_a] [] tt)
  /\ (forall state,
        scraped_data state = [Examples.page_a] ->
        value (format (Examples.cap_with (Return Examples.one_page)
                         Examples.empty_reply (fun _ => None)) state tt)
        = Return (set_formatted_data [] state)).
Proof.
  apply (format_skips_page_on_empty_reply
           (Examples.cap_with (Return Examples.one_page)
              Examples.empty_reply (fun _ => None))
           Examples.page_a Examples.meta_a "Hello world"
           [] [Examples.page_a] tt tt (Some {| content := "" |})).
  - split; [reflexivity | split; [reflexivity | discriminate]].
  - reflexivity.
  - right. eexists. split; reflexivity.
Defined.

(** C3, as the spec has it, fails: one fetched page, a model that answers
    with empty content; [format] returns normally and [formatted_data] is
    empty, so the page is dropped and no fallback summary stands for it. *)
Lemma format_empty_reply_drops_page :
  exists state',
    value (format (Examples.cap_with (Return Examples.one_page)
                     Examples.empty_reply (fun _ => None))
                  (Examples.state_fetched [Examples.page_a]) tt)
    = Return state'
    /\ formatted_data state' = []
    /\ formatted_data state'
       <> [fallback_entry (Some "https://example.com/a") "Hello world"].
Proof.
  eexists. split; [reflexivity|]. simpl. split; [reflexivity | discriminate].
Qed.

(** C6, as the code has it. When the model answers a summarizable page
    with content on which [json.loads] raises [JSONDecodeError], after
    [strip] and after the fenced block, if any, is taken out, the
    iteration returns normally and appends the fallback summary: title
    "Error parsing content", description the first 200 characters of the
    truncated markdown; the loop goes on with the next page, and the
    fallback is in whatever the loop returns. *)
Theorem format_fallback_on_unparsable_reply
    {World : Type} (cap : Capabilities World)
    (p : Document) (m : Metadata) (md : string)
    (acc : list Entry) (rest : list Document) (w w' : World)
    (message : AIMessage) (msg : string) :
  summarizable p m md ->
  llm_invoke cap (prompt (truncate_markdown md)) w
    = (Return (Some message), w') ->
  content message <> "" ->
  parse_response cap (content message) = Raise (JSONDecodeError msg) ->
  let fallback :=
    {| e_url := getattr_or (md_url m) (Some "");
       e_response :=
         JObj [("title", JStr "Error parsing content");
               ("description", JStr (str_take 200 (truncate_markdown md)))] |}
  in
  value (format_item cap p acc w) = Return (acc ++ [fallback])
  /\ value (format_loop cap (p :: rest) acc w)
     = value (format_loop cap rest (acc ++ [fallback]) w')
  /\ (forall out,
        value (format_loop cap (p :: rest) acc w) = Return out ->
        exists more, out = acc ++ fallback :: more)
  /\ (forall state,
        scraped_data state = [p] ->
        value (format cap state w)
        = Return (set_formatted_data [fallback] state)).
Proof.
  intros Hs Hcall Hne Hparse fallback. apply str_truthy_true in Hne.
  assert (Hitem : forall acc0, format_item cap p acc0 w =
                  {| trace := [EvLlmInvoke (prompt (truncate_markdown md))];
                     world := w'; value := Return (acc0 ++ [fallback]) |}).
  { intros acc0.
    rewrite (format_item_run cap p m md acc0 w _ w' Hs Hcall). simpl.
    rewrite Hne, Hparse. reflexivity. }
  assert (Hloop : value (format_loop cap (p :: rest) acc w)
                  = value (format_loop cap rest (acc ++ [fallback]) w')).
  { rewrite format_loop_cons. unfold bind. rewrite Hitem. reflexivity. }
  split; [by rewrite Hitem|]. split; [exact Hloop|]. split.
  - intros out Hout. rewrite Hloop in Hout.
    apply format_loop_extends in Hout as [more ->].
    exists more. by rewrite <- app_assoc.
  - intros state Hpages. unfold format. rewrite Hpages. simpl list_truthy.
    cbv iota. unfold bind at 1. rewrite format_loop_cons. unfold bind at 1.
    rewrite Hitem. reflexivity.
Qed.

Lemma format_fallback_on_unparsable_reply_witness :
  let cap := Examples.cap_with (Return Examples.one_page)
               Examples.prose_reply Examples.loads_empty_object in
  let fallback :=
    {| e_url := Some "https://example.com/a";
       e_response :=
         JObj [("title", JStr "Error parsing content");
               ("description", JStr "Hello world")] |} in
  value (format_item cap Examples.page_a [] tt) = Return [fallback]
  /\ value (format_loop cap [Examples.page_a] [] tt)
     = value (format_loop cap [] [fallback] tt)
  /\ (forall out,
        value (format_loop cap [Examples.page_a] [] tt) = Return out ->
        exists more, out = [] ++ fallback :: more)
  /\ (forall state,
        scraped_data state = [Examples.page_a] ->
        value (format cap state tt)
        = Return (set_formatted_data [fallback] state)).
Proof.
  apply (format_fallback_on_unparsable_reply
           (Examples.cap_with (Return Examples.one_page)
              Examples.prose_reply Examples.loads_empty_object)
           Examples.page_a Examples.meta_a "Hello world"
           [] [] tt tt {| content := "Sorry, I cannot summarise this." |}
           "Expecting value").
  - split; [reflexivity | split; [reflexivity | discriminate]].
  - reflexivity.
  - discriminate.
  - reflexivity.
Defined.

(** C6, as the spec has it, fails: one fetched page, a model that answers
    with 1000 opening brackets, on which [json.loads] raises
    [RecursionError]; the reply cannot be parsed, the handler does not
    catch the exception, and [format] raises it instead of returning a
    fallback summary. *)
Lemma format_deep_reply_raises :
  parse_response Examples.cap_deep_reply Examples.deep_content
  = Raise (RecursionError Examples.deep_message)
  /\ value (format Examples.cap_deep_reply
                   (Examples.state_fetched [Examples.page_a]) tt)
     = Raise (RecursionError Examples.deep_message)
  /\ ~ (exists state',
          value (format Examples.cap_deep_reply
                   (Examples.state_fetched [Examples.page_a]) tt)
          = Return state').
Proof.
  assert (Hparse :
    parse_response Examples.cap_deep_reply Examples.deep_content
    = Raise (RecursionError Examples.deep_message)) by (vm_compute; reflexivity).
  assert (Hformat :
    value (format Examples.cap_deep_reply
             (Examples.state_fetched [Examples.page_a]) tt)
    = Raise (RecursionError Examples.deep_message)) by (vm_compute; reflexivity).
  split; [exact Hparse|]. split; [exact Hformat|].
  intros (state' & Hret). rewrite Hformat in Hret. discriminate Hret.
Qed.

(** A fenced answer is unwrapped before parsing, so it is not a parse
    failure. *)
Example format_parses_fenced_reply :
  value (format_item
           (Examples.cap_with (Return Examples.one_page)
              (Return (Some {| content := " ```json
{}
``` " |}))
              Examples.loads_empty_object)
           Examples.page_a [] tt)
  = Return [{| e_url := Some "https://example.com/a";
               e_response := JObj [] |}].
Proof. reflexivity. Qed.

(** C7. Every prompt [format] sends to the model is built from the
    markdown of one of the fetched pages after truncation: at most 2000
    characters, the first 2000 when the markdown is longer, the markdown
    itself otherwise. *)
Theorem format_dispatches_truncated_content
    {World : Type} (cap : Capabilities World)
    (state : GraphState) (w : World) (ev : Event) :
  ev ∈ trace (format cap state w) ->
  exists p md,
    p ∈ scraped_data state
    /\ doc_markdown p = Attr md
    /\ ev = EvLlmInvoke (prompt_prefix +:+ truncate_markdown md +:+ prompt_suffix)
    /\ (String.length (truncate_markdown md) <= 2000)%nat
    /\ ((2000 < String.length md)%nat ->
        truncate_markdown md = str_take 2000 md
        /\ String.length (truncate_markdown md) = 2000%nat)
    /\ ((String.length md <= 2000)%nat -> truncate_markdown md = md).
Proof.
  intros Hev. unfold format in Hev. rewrite bind_ret_trace in Hev.
  assert (Hloop : ev ∈ trace (format_loop cap (scraped_data state) [] w)).
  { destruct (scraped_data state) as [|p0 l]; [|exact Hev].
    simpl in Hev. by apply elem_of_nil in Hev. }
  apply format_loop_trace in Hloop as (p & md & Hin & Hmd & ->).
  exists p, md. repeat split; try done.
  - apply truncate_markdown_bound.
  - by apply truncate_markdown_long.
  - rewrite truncate_markdown_long by done. rewrite str_take_length. lia.
  - apply truncate_markdown_short.
Qed.

Lemma format_dispatches_truncated_content_witness :
  exists p md,
    p ∈ scraped_data (Examples.state_fetched [Examples.page_long])
    /\ doc_markdown p = Attr md
    /\ EvLlmInvoke (prompt (str_take 2000 Examples.long_markdown))
       = EvLlmInvoke (prompt_prefix +:+ truncate_markdown md +:+ prompt_suffix)
    /\ (String.length (truncate_markdown md) <= 2000)%nat
    /\ ((2000 < String.length md)%nat ->
        truncate_markdown md = str_take 2000 md
        /\ String.length (truncate_markdown md) = 2000%nat)
    /\ ((String.length md <= 2000)%nat -> truncate_markdown md = md).
Proof.
  apply (format_dispatches_truncated_content
           (Examples.cap_with (Return Examples.one_page)
              Examples.empty_reply (fun _ => None))
           (Examples.state_fetched [Examples.page_long]) tt
           (EvLlmInvoke (prompt (str_take 2000 Examples.long_markdown)))).
  vm_compute. constructor.
Defined.

Example truncate_long_markdown :
  String.length (truncate_markdown Examples.long_markdown) = 2000%nat.
Proof. vm_compute. reflexivity. Qed.

(** ** Persist: [save] *)

(** C8. [save] makes one write, of the record of the seed URL and the
    summaries, exactly when the URL and the summaries are both non-empty;
    when the write returns, that record is what [save] returns under
    [result]. Otherwise it writes nothing, touches nothing and returns the
    state, which has no [result]. *)
Theorem save_writes_iff_url_and_summaries
    {World : Type} (cap : Capabilities World)
    (state : GraphState) (w : World) :
  let output := {| source_url := url state; data := formatted_data state |} in
  let r := save cap state w in
  (trace r = [EvWriteJson "scraped_data.json" output]
   <-> (url state <> "" /\ formatted_data state <> []))
  /\ (url state <> "" /\ formatted_data state <> [] ->
      forall w',
        write_json cap "scraped_data.json" output w = (Return tt, w') ->
        value r = Return (ResultDict output)
        /\ get_result (ResultDict output) = Some output)
  /\ ((exists o, value r = Return (ResultDict o)) ->
      url state <> "" /\ formatted_data state <> [])
  /\ (~ (url state <> "" /\ formatted_data state <> []) ->
      trace r = [] /\ world r = w
      /\ value r = Return (StateDict state)
      /\ get_result (StateDict state) = None).
Proof.
  intros output r. subst r. unfold save. fold output.
  destruct (str_truthy (url state) && list_truthy (formatted_data state))
    eqn:Hboth.
  - apply andb_prop in Hboth as [Hu Hd].
    assert (Hb : url state <> "" /\ formatted_data state <> []).
    { split; [by apply str_truthy_true|].
      destruct (formatted_data state); [discriminate | done]. }
    unfold bind, call.
    destruct (write_json cap "scraped_data.json" output w) as [o w1].
    destruct o as [[]|e]; simpl.
    + split; [split; done|]. split; [intros _ w' _; done|].
      split; [done|]. intros Hn. destruct (Hn Hb).
    + split; [split; done|]. split; [intros _ w' Heq; discriminate Heq|].
      split; [done|]. intros Hn. destruct (Hn Hb).
  - assert (Hn : ~ (url state <> "" /\ formatted_data state <> [])).
    { intros [Hu Hd]. apply str_truthy_true in Hu. rewrite Hu in Hboth.
      destruct (formatted_data state); [done | discriminate]. }
    simpl. split; [split; [discriminate | intros Hb; destruct (Hn Hb)]|].
    split; [intros Hb; destruct (Hn Hb)|].
    split; [intros (o & Ho); discriminate Ho|].
    intros _. done.
Qed.

Example save_degenerate :
  value (save (Examples.cap_with (Return Examples.no_data)
                 Examples.empty_reply (fun _ => None))
              Examples.state_one_batch tt)
  = Return (StateDict Examples.state_one_batch).
Proof. reflexivity. Qed.

(** ** The job API *)

Import Main.

(** C9. [get_job_result] raises 404 for an id that is not in the store,
    whatever else the store holds; 425 for a job that is pending or
    running; 500 for a failed job, with the stored error in the detail. The
    store is left as it was. *)
Theorem get_job_result_guards
    (format_status : JobStatus -> string)
    (validate : Output -> outcome Output)
    (job_id : string) (store : gmap string Job) :
  (store !! job_id = None ->
   get_job_result format_status validate job_id store
   = (store, Raise (HTTPException 404 "Job not found")))
  /\ (forall job,
        store !! job_id = Some job ->
        j_status job = PENDING \/ j_status job = RUNNING ->
        get_job_result format_status validate job_id store
        = (store,
           Raise (HTTPException 425
                    ("Job is still " +:+ format_status (j_status job)
                     +:+ ". Please wait for completion."))))
  /\ (forall job description,
        store !! job_id = Some job ->
        j_status job = FAILED ->
        j_error job = Some description ->
        get_job_result format_status validate job_id store
        = (store, Raise (HTTPException 500 ("Job failed: " +:+ description)))).
Proof.
  unfold get_job_result. split; [|split].
  - intros ->. reflexivity.
  - intros job -> [Hs | Hs]; by rewrite Hs.
  - intros job description -> Hs He. by rewrite Hs, He.
Qed.

Example get_job_result_failed :
  get_job_result (fun _ => "pending") Return "job-1"
    (<["job-1" := Examples.failed_job]> Examples.store_pending)
  = (<["job-1" := Examples.failed_job]> Examples.store_pending,
     Raise (HTTPException 500 "Job failed: quota exceeded")).
Proof. reflexivity. Qed.

(** C10. When the graph returns normally without a result, [scrape_sync]
    raises its own 500, "no data was returned", inside the [try]; the
    handler catches it and raises 500 again, with that exception rendered
    in the detail. *)
Theorem scrape_sync_without_result_is_500
    (str_exc : PyExc -> string) (validate : Output -> outcome Output) :
  scrape_sync str_exc validate (Return None)
  = Raise (HTTPException 500
             ("Scraping failed: "
              +:+ str_exc (HTTPException 500
                             "Scraping completed but no data was returned"))).
Proof. reflexivity. Qed.

Example scrape_sync_with_result (o : Output) :
  scrape_sync (fun _ => "") Return (Return (Some o)) = Return o.
Proof. reflexivity. Qed.

(** *** Completion after deletion *)

Lemma setitem_missing (job_id : string) (f : Job -> Job)
    (store : gmap string Job) :
  store !! job_id = None ->
  setitem job_id f store = (store, Raise (KeyError job_id)).
Proof. intros H. unfold setitem. by rewrite H. Qed.

Lemma setitem_present (job_id : string) (f : Job -> Job)
    (store : gmap string Job) job :
  store !! job_id = Some job ->
  setitem job_id f store = (<[job_id := f job]> store, Return tt).
Proof. intros H. unfold setitem. by rewrite H. Qed.

Lemma delete_job_after_write (job_id : string) (store : gmap string Job)
    (job' : Job) :
  fst (delete_job job_id (<[job_id := job']> store)) = delete job_id store.
Proof.
  unfold delete_job. rewrite lookup_insert_eq. simpl.
  apply delete_insert_eq.
Qed.

(** C4: what the code does. A job that is in the store when its run starts
    and is deleted by [delete_job] while the graph runs: the completion
    write raises [KeyError], the handler's own write raises it again, and
    the exception leaves [run_scraping_job], whether the graph returned or
    raised. *)
Theorem run_scraping_job_raises_after_delete
    (str_exc : PyExc -> string)
    (job_id url now : string) (graph_invoke : outcome GraphResult)
    (store : gmap string Job) (job : Job) :
  store !! job_id = Some job ->
  run_scraping_job str_exc job_id url graph_invoke
    (fun s => fst (delete_job job_id s)) now store
  = (delete job_id store, Raise (KeyError job_id)).
Proof.
  intros Hjob. unfold run_scraping_job, try_except, jbind.
  rewrite (setitem_present _ _ _ _ Hjob).
  assert (Hgone : delete job_id store !! job_id = None)
    by apply lookup_delete_eq.
  destruct graph_invoke as [result|e]; cbn beta iota;
    rewrite delete_job_after_write;
    rewrite !(setitem_missing _ _ _ Hgone); reflexivity.
Qed.

Lemma run_scraping_job_raises_after_delete_witness :
  run_scraping_job (fun _ => "error") "job-1" "https://example.com/"
    (Return None) (fun s => fst (delete_job "job-1" s))
    "2026-01-01T00:00:09" Examples.store_pending
  = (delete "job-1" Examples.store_pending, Raise (KeyError "job-1")).
Proof.
  apply (run_scraping_job_raises_after_delete (fun _ => "error")
           "job-1" "https://example.com/" "2026-01-01T00:00:09"
           (Return None) Examples.store_pending Examples.pending_job).
  reflexivity.
Defined.

(** Without the deletion the same run completes the job. *)
Example run_scraping_job_completes :
  run_scraping_job (fun _ => "error") "job-1" "https://example.com/"
    (Return None) (fun s => s) "2026-01-01T00:00:09" Examples.store_pending
  = ({[ "job-1" :=
         with_result ResultEmpty
           (with_completed_at (Some "2026-01-01T00:00:09")
              (with_status COMPLETED Examples.pending_job)) ]},
     Return tt).
Proof. vm_compute. reflexivity. Qed.

(** ** Retry bookkeeping over a pipeline run *)

Import Supervisor.

Lemma stage_of_identifier_sound (K : Constants) (name : string) (X : Stage) :
  stage_of_identifier K name = Some X -> identifier K X = name.
Proof.
  unfold stage_of_identifier.
  destruct (String.eqb name (CRAWL K)) eqn:H1;
    [apply String.eqb_eq in H1; intros [= <-]; done|].
  destruct (String.eqb name (SCRAP K)) eqn:H2;
    [apply String.eqb_eq in H2; intros [= <-]; done|].
  destruct (String.eqb name (FORMAT K)) eqn:H3;
    [apply String.eqb_eq in H3; intros [= <-]; done|].
  destruct (String.eqb name (SAVE K)) eqn:H4;
    [apply String.eqb_eq in H4; intros [= <-]; done|].
  discriminate.
Qed.

Section Retry.
Context {World : Type} (cap : Capabilities World).
Variable K : Constants.
Variable str_exc : PyExc -> string.
Variable retry_budget : Z.

Local Abbreviation step := (Supervisor.step cap K str_exc retry_budget).
Local Abbreviation Reachable := (Supervisor.Reachable cap K str_exc retry_budget).

Lemma step_stage (X : Stage) (c : Config) (w : World) tr c' w' :
  loc c = AtStage X ->
  step c w = Some (tr, c', w') ->
  (loc c' <> ErrorHandler /\ retry_count (st c') = 0)
  \/ (loc c' = ErrorHandler
      /\ retry_count (st c') = retry_count (st c)
      /\ failed_node (st c') = identifier K X).
Proof.
  intros Hloc Hstep. unfold Supervisor.step in Hstep. rewrite Hloc in Hstep.
  injection Hstep as _ <- _.
  destruct (value (stage_body cap X (st c) w)) as [[s' o]|e].
  - left. split; [|reflexivity]. simpl. by destruct X; simpl; try case_match.
  - right. done.
Qed.

Lemma step_error_handler (c : Config) (w : World) tr c' w' :
  loc c = ErrorHandler ->
  step c w = Some (tr, c', w') ->
  retry_count (st c') = retry_count (st c) + 1
  /\ failed_node (st c') = failed_node (st c)
  /\ (loc c' = Aborted
      \/ exists X, loc c' = AtStage X /\ identifier K X = failed_node (st c)).
Proof.
  intros Hloc Hstep. unfold Supervisor.step in Hstep. rewrite Hloc in Hstep.
  destruct (retry_budget <? retry_count (error_handler (st c))).
  - injection Hstep as _ <- _. simpl. auto.
  - simpl failed_node in Hstep.
    destruct (stage_of_identifier K (failed_node (st c))) as [X|] eqn:HX;
      [|discriminate].
    injection Hstep as _ <- _. simpl. split; [done|]. split; [done|].
    right. exists X. split; [done|]. by apply stage_of_identifier_sound.
Qed.

Lemma step_preserves_invariant (c : Config) (w : World) tr c' w' :
  retry_invariant K c ->
  step c w = Some (tr, c', w') ->
  retry_invariant K c'.
Proof.
  intros [Hnonneg Hinv] Hstep. unfold retry_invariant.
  destruct (loc c) as [X| | |] eqn:Hloc.
  - destruct (step_stage X c w tr c' w' Hloc Hstep)
      as [[Hok Hzero] | (Herr & Hsame & Hfailed)].
    + rewrite Hzero. split; [lia|].
      destruct (loc c'); try done; intros; lia.
    + rewrite Hsame, Herr. split; [done|]. by exists X.
  - destruct (step_error_handler c w tr c' w' Hloc Hstep)
      as (Hinc & Hfailed & [Hab | (X & HX & Hid)]).
    + rewrite Hinc, Hab. split; [lia | done].
    + rewrite Hinc, HX. split; [lia|]. intros _. by rewrite Hfailed.
  - unfold Supervisor.step in Hstep. rewrite Hloc in Hstep. discriminate.
  - unfold Supervisor.step in Hstep. rewrite Hloc in Hstep. discriminate.
Qed.

Lemma reachable_invariant input w0 (c : Config) (w : World) :
  Reachable input w0 c w -> retry_invariant K c.
Proof.
  induction 1 as [|c w tr c' w' _ IH Hstep].
  - split; simpl; lia.
  - by eapply step_preserves_invariant.
Qed.

End Retry.

(** C2. In every run of the pipeline, a stage that completes leaves
    [retry_count] at 0; the count goes up only in the error handler, by
    one, on behalf of the recorded failed stage, which is the stage entered
    next unless the run aborts; and a stage is entered with a positive
    count only when it is that failed stage. *)
Theorem retry_count_discipline
    {World : Type} (cap : Capabilities World) (K : Constants)
    (str_exc : PyExc -> string) (retry_budget : Z)
    (input : InputState) (w0 : World)
    (c : Config) (w : World) (tr : list Event) (c' : Config) (w' : World) :
  Reachable cap K str_exc retry_budget input w0 c w ->
  step cap K str_exc retry_budget c w = Some (tr, c', w') ->
  (forall X, loc c = AtStage X -> loc c' <> ErrorHandler ->
             retry_count (st c') = 0)
  /\ (retry_count (st c) < retry_count (st c') ->
      loc c = ErrorHandler
      /\ retry_count (st c') = retry_count (st c) + 1
      /\ failed_node (st c') = failed_node (st c)
      /\ (loc c' = Aborted
          \/ exists X, loc c' = AtStage X
                       /\ identifier K X = failed_node (st c)))
  /\ (forall X, loc c = AtStage X -> 0 < retry_count (st c) ->
                failed_node (st c) = identifier K X).
Proof.
  intros Hreach Hstep.
  destruct (reachable_invariant cap K str_exc retry_budget input w0 c w Hreach)
    as [Hnonneg Hinv].
  split; [|split].
  - intros X Hloc Hok.
    destruct (step_stage cap K str_exc retry_budget X c w tr c' w' Hloc Hstep)
      as [[_ Hzero] | (Herr & _)]; [done | by destruct Hok].
  - intros Hup. destruct (loc c) as [X| | |] eqn:Hloc.
    + destruct (step_stage cap K str_exc retry_budget X c w tr c' w' Hloc Hstep)
        as [[_ Hzero] | (_ & Hsame & _)]; lia.
    + split; [done|].
      by apply (step_error_handler cap K str_exc retry_budget c w tr c' w').
    + unfold step in Hstep. rewrite Hloc in Hstep. discriminate.
    + unfold step in Hstep. rewrite Hloc in Hstep. discriminate.
  - intros X Hloc Hpos. rewrite Hloc in Hinv. by apply Hinv.
Qed.

Lemma retry_count_discipline_witness :
  (forall X, loc Examples.after_fault = AtStage X ->
             loc Examples.after_handler <> ErrorHandler ->
             retry_count (st Examples.after_handler) = 0)
  /\ (retry_count (st Examples.after_fault)
      < retry_count (st Examples.after_handler) ->
      loc Examples.after_fault = ErrorHandler
      /\ retry_count (st Examples.after_handler)
         = retry_count (st Examples.after_fault) + 1
      /\ failed_node (st Examples.after_handler)
         = failed_node (st Examples.after_fault)
      /\ (loc Examples.after_handler = Aborted
          \/ exists X, loc Examples.after_handler = AtStage X
                       /\ identifier Examples.stage_names X
                          = failed_node (st Examples.after_fault)))
  /\ (forall X, loc Examples.after_fault = AtStage X ->
                0 < retry_count (st Examples.after_fault) ->
                failed_node (st Examples.after_fault)
                = identifier Examples.stage_names X).
Proof.
  apply (retry_count_discipline Examples.cap_crawl_down Examples.stage_names
           Examples.describe 3 Examples.seed tt
           Examples.after_fault tt [] Examples.after_handler tt).
  - apply (reach_step Examples.cap_crawl_down Examples.stage_names
             Examples.describe 3 Examples.seed tt
             (start Examples.seed) tt
             [EvCrawl "https://example.com"] Examples.after_fault tt).
    + apply reach_start.
    + reflexivity.
  - reflexivity.
Defined.

(** A run in which Discover faults once and then finds nothing: the count
    is 1 on re-entry and 0 again once Discover has completed. *)
Example retry_then_reset :
  retry_count (st Examples.after_handler) = 1
  /\ exists c',
      step (Examples.cap_with (Return Examples.no_data) Examples.empty_reply
              (fun _ => None))
           Examples.stage_names Examples.describe 3
           Examples.after_handler tt
      = Some ([EvCrawl "https://example.com"], c', tt)
      /\ loc c' = AtStage Persist
      /\ retry_count (st c') = 0 /\ failed_node (st c') = "".
Proof. split; [reflexivity|]. eexists. split; [reflexivity|]. done. Qed.

(** * Further properties of the stages *)

(** ** Planning and discovery *)

Lemma py_slice_to_take {A : Type} (l : list A) (k : Z) :
  py_slice_to l k
  = take (Z.to_nat (if k <? 0 then Z.of_nat (length l) + k else k)) l.
Proof.
  unfold py_slice_to, py_slice, clamp_index. simpl (0 <? 0).
  rewrite (Z.min_l 0) by lia. simpl (Z.to_nat 0). rewrite drop_0, Z.sub_0_r.
  destruct (k <? 0) eqn:Hk.
  - apply Z.ltb_lt in Hk.
    destruct (Z.le_gt_cases 0 (k + Z.of_nat (length l))).
    + rewrite Z.max_r by lia. f_equal. lia.
    + rewrite Z.max_l by lia.
      replace (Z.to_nat (Z.of_nat (length l) + k)) with O by lia. done.
  - apply Z.ltb_ge in Hk.
    destruct (Z.le_gt_cases k (Z.of_nat (length l))).
    + by rewrite Z.min_l by lia.
    + rewrite Z.min_r by lia. rewrite !take_ge; [done | lia | lia].
Qed.

Lemma plan_batches_positive {A : Type} (l : list A) (B : Z) :
  1 <= B ->
  exists batches,
    plan_batches l B = Return batches
    /\ concat batches = l
    /\ Forall (fun b => b <> [] /\ Z.of_nat (length b) <= B) batches.
Proof.
  intros HB. unfold plan_batches, py_range.
  assert (HB0 : (B =? 0) = false) by (apply Z.eqb_neq; lia).
  assert (HBpos : (0 <? B) = true) by (apply Z.ltb_lt; lia).
  rewrite HB0, HBpos. eexists. split; [reflexivity|]. split.
  - rewrite range_up_chunks by lia. done.
  - apply range_up_chunk_sizes; lia.
Qed.

(** X1. A batch size of 0 makes the planning raise [ValueError]; a negative
    batch size raises nothing and plans no batch at all, whatever the
    URLs. *)
Theorem plan_batches_nonpositive {A : Type} (l : list A) :
  plan_batches l 0 = Raise (ValueError "range() arg 3 must not be zero")
  /\ (forall B, B < 0 -> plan_batches l B = Return []).
Proof.
  split; [reflexivity|]. intros B HB. unfold plan_batches, py_range.
  assert (HB0 : (B =? 0) = false) by (apply Z.eqb_neq; lia).
  assert (HBneg : (0 <? B) = false) by (apply Z.ltb_ge; lia).
  rewrite HB0, HBneg.
  replace (Z.to_nat (0 - Z.of_nat (length l))) with O by lia. reflexivity.
Qed.

Section Crawl.
Context {World : Type} (cap : Capabilities World).

Lemma crawl_returns (state : GraphState) (w : World) state' :
  value (crawl cap state w) = Return state' ->
  trace (crawl cap state w) = [EvCrawl (url state)]
  /\ exists batches, state' = set_url_batches batches state.
Proof.
  unfold crawl, bind, call, lift.
  destruct (firecrawl_crawl cap (url state) w) as [[response|e] w1];
    simpl; [|done].
  destruct (checked_len (getattr_or (cj_data response) (Some [])))
    as [[|first_doc others]|e]; simpl; [| |done].
  { intros [= <-]. eauto. }
  destruct (checked_len (getattr_or (doc_links first_doc) (Some [])))
    as [links|e]; simpl; [|done].
  destruct (getenv_int cap "URL_LIMIT") as [k|e]; simpl; [|done].
  destruct (getenv_int cap "BATCH_LIMIT") as [B|e]; simpl; [|done].
  destruct (plan_batches _ B) as [batches|e]; simpl; [|done].
  intros [= <-]. eauto.
Qed.

End Crawl.

(** X2. When the crawl call returns an object without [data], or with an
    empty [data], [crawl] returns the state with no batches after that one
    call, without reading URL_LIMIT or BATCH_LIMIT; when [data] is there
    but is [None], [crawl] raises [TypeError]. *)
Theorem crawl_without_data
    {World : Type} (cap : Capabilities World)
    (state : GraphState) (w w' : World) (response : CrawlJob) :
  firecrawl_crawl cap (url state) w = (Return response, w') ->
  (cj_data response = NoAttr \/ cj_data response = Attr [] ->
   crawl cap state w
   = {| trace := [EvCrawl (url state)]; world := w';
        value := Return (set_url_batches [] state) |})
  /\ (cj_data response = AttrNone ->
      value (crawl cap state w)
      = Raise (TypeError "object of type 'NoneType' has no len()")).
Proof.
  intros Hcall. unfold crawl, bind, call, lift. rewrite Hcall. simpl.
  split.
  - intros [-> | ->]; reflexivity.
  - intros ->. reflexivity.
Qed.

Lemma crawl_without_data_witness :
  (cj_data {| cj_data := NoAttr |} = NoAttr
   \/ cj_data {| cj_data := NoAttr |} = @Attr (list Document) [] ->
   crawl (Examples.cap_with (Return Examples.no_data) Examples.empty_reply
            (fun _ => None)) Examples.state_one_batch tt
   = {| trace := [EvCrawl "https://example.com"]; world := tt;
        value := Return (set_url_batches [] Examples.state_one_batch) |})
  /\ (cj_data {| cj_data := NoAttr |} = AttrNone ->
      value (crawl (Examples.cap_with (Return Examples.no_data)
                      Examples.empty_reply (fun _ => None))
                   Examples.state_one_batch tt)
      = Raise (TypeError "object of type 'NoneType' has no len()")).
Proof.
  apply (crawl_without_data
           (Examples.cap_with (Return Examples.no_data) Examples.empty_reply
              (fun _ => None))
           Examples.state_one_batch tt tt {| cj_data := NoAttr |}).
  reflexivity.
Defined.

(** X3. When the crawl call returns documents, [crawl] reads the links of
    the first one only: the batches, concatenated, are the links that pass
    [is_valid_url], in order, cut by URL_LIMIT; each batch is non-empty and
    within BATCH_LIMIT; nothing else of the state changes. *)
Theorem crawl_batches_from_first_document
    {World : Type} (cap : Capabilities World)
    (state : GraphState) (w w' : World) (response : CrawlJob)
    (first_doc : Document) (others : list Document)
    (links : list string) (k B : Z) :
  firecrawl_crawl cap (url state) w = (Return response, w') ->
  cj_data response = Attr (first_doc :: others) ->
  getattr_or (doc_links first_doc) (Some []) = Some links ->
  getenv_int cap "URL_LIMIT" = Return k ->
  getenv_int cap "BATCH_LIMIT" = Return B ->
  1 <= B ->
  exists batches,
    value (crawl cap state w) = Return (set_url_batches batches state)
    /\ concat batches
       = py_slice_to
           (List.filter (fun u => is_valid_url cap u (url state)) links) k
    /\ Forall (fun b => b <> [] /\ Z.of_nat (length b) <= B) batches
    /\ (forall u, In u (concat batches) ->
                  In u links /\ is_valid_url cap u (url state) = true)
    /\ (0 <= k -> Z.of_nat (length (concat batches)) <= k).
Proof.
  intros Hcall Hdata Hlinks Hk HB HB1.
  set (limited :=
         py_slice_to
           (List.filter (fun u => is_valid_url cap u (url state)) links) k).
  destruct (plan_batches_positive limited B HB1)
    as (batches & Hplan & Hconcat & Hsizes).
  exists batches. split; [|split; [exact Hconcat|split; [exact Hsizes|split]]].
  - unfold crawl, bind, call, lift. rewrite Hcall. simpl.
    rewrite Hdata. simpl. rewrite Hlinks. simpl. rewrite Hk. simpl.
    rewrite HB. simpl. fold limited. rewrite Hplan. reflexivity.
  - intros u Hu. rewrite Hconcat in Hu. subst limited.
    rewrite py_slice_to_take in Hu.
    apply list_elem_of_In, elem_of_take in Hu as (i & Hi & _).
    apply list_elem_of_lookup_2, list_elem_of_In, filter_In in Hi. done.
  - intros Hk0. rewrite Hconcat. subst limited. rewrite py_slice_to_take.
    assert (Hk' : (k <? 0) = false) by (apply Z.ltb_ge; lia).
    rewrite Hk', length_take. lia.
Qed.

Lemma crawl_batches_from_first_document_witness :
  exists batches,
    value (crawl Examples.cap_crawl_links Examples.state_one_batch tt)
    = Return (set_url_batches batches Examples.state_one_batch)
    /\ concat batches
       = py_slice_to
           (List.filter
              (fun u => is_valid_url Examples.cap_crawl_links u
                          (url Examples.state_one_batch))
              Examples.seed_links) 3
    /\ Forall (fun b => b <> [] /\ Z.of_nat (length b) <= 2) batches
    /\ (forall u, In u (concat batches) ->
                  In u Examples.seed_links
                  /\ is_valid_url Examples.cap_crawl_links u
                       (url Examples.state_one_batch) = true)
    /\ (0 <= 3 -> Z.of_nat (length (concat batches)) <= 3).
Proof.
  apply (crawl_batches_from_first_document Examples.cap_crawl_links
           Examples.state_one_batch tt tt Examples.seed_crawl
           Examples.seed_doc [] Examples.seed_links 3 2);
    [reflexivity | reflexivity | reflexivity | reflexivity | reflexivity | lia].
Defined.

Example crawl_seed_links :
  value (crawl Examples.cap_crawl_links Examples.state_one_batch tt)
  = Return (set_url_batches
              [["https://example.com/a"; "https://example.com/b"];
               ["https://example.com/c"]]
              Examples.state_one_batch).
Proof. reflexivity. Qed.

(** ** Fetching *)

Section ScrapMore.
Context {World : Type} (cap : Capabilities World).

Lemma scrap_returns (state : GraphState) (w : World) state' :
  value (scrap cap state w) = Return state' ->
  (state' = set_scraped_data [] state /\ length (trace (scrap cap state w)) <= 1)%nat
  \/ exists batch rest pages,
       url_batches state = batch :: rest
       /\ pages <> []
       /\ state' = set_scraped_data pages (set_url_batches rest state)
       /\ trace (scrap cap state w) = [EvBatchScrape batch].
Proof.
  unfold scrap.
  destruct (url_batches state) as [|batch rest] eqn:Hb; simpl.
  { intros [= <-]. left. split; [done | lia]. }
  unfold bind, call.
  destruct (firecrawl_batch_scrape cap batch w) as [[job|e] w1]; simpl;
    [|done].
  destruct (getattr_or (bs_data job) (Some [])) as [[|p pages]|] eqn:Hd;
    simpl; intros [= <-].
  - left. split; [done | lia].
  - right. exists batch, rest, (p :: pages). done.
  - left. split; [done | lia].
Qed.

End ScrapMore.

(** X4. Whenever [scrap] returns, it has made at most one call; the pages
    it leaves in [scraped_data] are non-empty exactly when it removed the
    first batch, and then the call was for that batch; it removes nothing
    else, and [formatted_data] and the seed URL stay as they were. *)
Theorem scrap_consumes_at_most_one_batch
    {World : Type} (cap : Capabilities World)
    (state : GraphState) (w : World) (state' : GraphState) :
  value (scrap cap state w) = Return state' ->
  (length (trace (scrap cap state w)) <= 1)%nat
  /\ (scraped_data state' = [] -> url_batches state' = url_batches state)
  /\ (scraped_data state' <> [] ->
      exists batch,
        url_batches state = batch :: url_batches state'
        /\ trace (scrap cap state w) = [EvBatchScrape batch])
  /\ formatted_data state' = formatted_data state
  /\ url state' = url state.
Proof.
  intros Hret.
  destruct (scrap_returns cap state w state' Hret)
    as [[-> Hlen] | (batch & rest & pages & Hb & Hne & -> & Htr)]; simpl.
  - split; [done|]. split; [done|]. split; [done|]. done.
  - rewrite Htr. simpl. split; [lia|]. split; [done|].
    split; [|done]. intros _. exists batch. done.
Qed.

Lemma scrap_consumes_at_most_one_batch_witness :
  let cap := Examples.cap_with (Return Examples.one_page)
               Examples.empty_reply (fun _ => None) in
  let state' :=
    set_scraped_data [Examples.page_a]
      (set_url_batches [] Examples.state_one_batch) in
  (length (trace (scrap cap Examples.state_one_batch tt)) <= 1)%nat
  /\ (scraped_data state' = [] ->
      url_batches state' = url_batches Examples.state_one_batch)
  /\ (scraped_data state' <> [] ->
      exists batch,
        url_batches Examples.state_one_batch = batch :: url_batches state'
        /\ trace (scrap cap Examples.state_one_batch tt)
           = [EvBatchScrape batch])
  /\ formatted_data state' = formatted_data Examples.state_one_batch
  /\ url state' = url Examples.state_one_batch.
Proof.
  apply (scrap_consumes_at_most_one_batch
           (Examples.cap_with (Return Examples.one_page)
              Examples.empty_reply (fun _ => None))
           Examples.state_one_batch tt).
  reflexivity.
Defined.

(** ** Summarizing *)

Section FormatMore.
Context {World : Type} (cap : Capabilities World).

Lemma summarizable_page_url p m md :
  summarizable p m md -> page_url p = getattr_or (md_url m) (Some "").
Proof. intros (Hm & _). unfold page_url. by rewrite Hm. Qed.

(** One call at most and one entry at most for each page, the entries in
    the order of the pages, each with the URL of its page. *)
Lemma format_loop_entries l :
  forall acc w,
    (length (trace (format_loop cap l acc w)) <= length l)%nat
    /\ forall out,
        value (format_loop cap l acc w) = Return out ->
        exists kept new,
          out = acc ++ new
          /\ sublist kept l
          /\ map e_url new = map page_url kept.
Proof.
  induction l as [|p rest IH]; intros acc w.
  - simpl. split; [lia|]. intros out [= <-].
    exists [], []. by rewrite app_nil_r.
  - rewrite format_loop_cons.
    destruct (summarizable_dec p) as [(m & md & Hs) | Hno].
    + destruct (llm_invoke cap (prompt (truncate_markdown md)) w)
        as [reply w'] eqn:Hcall.
      unfold bind.
      rewrite (format_item_run cap p m md acc w reply w' Hs Hcall). simpl.
      destruct (after_reply cap _ _ acc reply) as [acc'|e] eqn:Hafter; simpl.
      * destruct (IH acc' w') as [Hlen Hout]. split; [lia|].
        intros out Hret. apply Hout in Hret as (kept & new & -> & Hsub & Hurls).
        unfold after_reply in Hafter.
        destruct reply as [[message|]|e]; [| |done].
        -- destruct (negb (str_truthy (content message))).
           { injection Hafter as <-. exists kept, new.
             split; [done|]. split; [by apply sublist_cons | done]. }
           assert (Hone : exists entry,
                      acc' = acc ++ [entry] /\ e_url entry = page_url p).
           { rewrite (summarizable_page_url p m md Hs).
             destruct (parse_response cap (content message)) as [parsed|e0];
               [|destruct (is_json_decode_error e0); [|discriminate Hafter]];
               injection Hafter as <-; eexists; split; done. }
           destruct Hone as (entry & -> & Hurl).
           exists (p :: kept), (entry :: new).
           split; [by rewrite <- app_assoc|].
           split; [by apply sublist_skip|]. simpl. by rewrite Hurl, Hurls.
        -- injection Hafter as <-. exists kept, new.
           split; [done|]. split; [by apply sublist_cons | done].
      * split; [lia | done].
    + unfold bind. rewrite (format_item_skip cap p acc w Hno). simpl.
      destruct (IH acc w) as [Hlen Hout]. split; [simpl in Hlen |- *; lia|].
      intros out Hret.
      assert (Hret' : value (format_loop cap rest acc w) = Return out).
      { destruct (value (format_loop cap rest acc w)); done. }
      apply Hout in Hret' as (kept & new & -> & Hsub & Hurls).
      exists kept, new. split; [done|]. split; [by apply sublist_cons | done].
Qed.

End FormatMore.

Lemma format_entries_of_pages
    {World : Type} (cap : Capabilities World)
    (state : GraphState) (w : World) (state' : GraphState) :
  value (format cap state w) = Return state' ->
  exists kept,
    sublist kept (scraped_data state)
    /\ map e_url (formatted_data state') = map page_url kept.
Proof.
  unfold format.
  destruct (scraped_data state) as [|p l] eqn:Hpages.
  { simpl. intros [= <-]. exists []. done. }
  simpl list_truthy. cbv iota.
  destruct (format_loop_entries cap (p :: l) [] w) as [_ Hout].
  intros Hret. unfold bind in Hret.
  destruct (value (format_loop cap (p :: l) [] w)) as [out|e] eqn:Hv;
    [|done].
  simpl in Hret. injection Hret as <-.
  destruct (Hout out eq_refl) as (kept & new & -> & Hsub & Hurls).
  exists kept. done.
Qed.

(** X5. [format] calls the model at most once for each fetched page, and
    when it returns, [formatted_data] holds at most one entry for each
    page, in the order of the pages, each under the URL of its page. *)
Theorem format_one_entry_per_page
    {World : Type} (cap : Capabilities World)
    (state : GraphState) (w : World) :
  (length (trace (format cap state w)) <= length (scraped_data state))%nat
  /\ forall state',
      value (format cap state w) = Return state' ->
      exists kept,
        sublist kept (scraped_data state)
        /\ map e_url (formatted_data state') = map page_url kept.
Proof.
  unfold format. rewrite bind_ret_trace.
  destruct (scraped_data state) as [|p l] eqn:Hpages.
  { simpl. split; [lia|]. intros state' [= <-]. exists []. done. }
  simpl list_truthy. cbv iota.
  destruct (format_loop_entries cap (p :: l) [] w) as [Hlen Hout].
  split; [exact Hlen|]. intros state' Hret. unfold bind in Hret.
  destruct (value (format_loop cap (p :: l) [] w)) as [out|e] eqn:Hv;
    [|done].
  simpl in Hret. injection Hret as <-.
  destruct (Hout out eq_refl) as (kept & new & -> & Hsub & Hurls).
  exists kept. done.
Qed.

(** X6. [format] does not read [formatted_data]: whatever it held is
    replaced, so running [format] on a state with entries of an earlier
    batch gives what it gives without them; with no fetched page it calls
    nothing and leaves [formatted_data] empty. *)
Theorem format_replaces_formatted_data
    {World : Type} (cap : Capabilities World)
    (state : GraphState) (old : list Entry) (w : World) :
  format cap (set_formatted_data old state) w = format cap state w
  /\ (scraped_data state = [] ->
      format cap (set_formatted_data old state) w
      = {| trace := []; world := w;
           value := Return (set_formatted_data [] state) |}).
Proof.
  split; [reflexivity|]. intros Hnil. unfold format. simpl scraped_data.
  rewrite Hnil. reflexivity.
Qed.

(** X7. A reply that [json.loads] accepts is stored as it was parsed,
    whatever its shape: no key is checked and no fallback is made. *)
Theorem format_stores_parsed_reply
    {World : Type} (cap : Capabilities World)
    (p : Document) (m : Metadata) (md : string)
    (acc : list Entry) (rest : list Document) (w w' : World)
    (message : AIMessage) (parsed : Json) :
  summarizable p m md ->
  llm_invoke cap (prompt (truncate_markdown md)) w
    = (Return (Some message), w') ->
  content message <> "" ->
  parse_response cap (content message) = Return parsed ->
  let entry := {| e_url := page_url p; e_response := parsed |} in
  value (format_item cap p acc w) = Return (acc ++ [entry])
  /\ value (format_loop cap (p :: rest) acc w)
     = value (format_loop cap rest (acc ++ [entry]) w').
Proof.
  intros Hs Hcall Hne Hparse entry.
  assert (Hitem : format_item cap p acc w =
                  {| trace := [EvLlmInvoke (prompt (truncate_markdown md))];
                     world := w'; value := Return (acc ++ [entry]) |}).
  { rewrite (format_item_run cap p m md acc w _ w' Hs Hcall). simpl.
    apply str_truthy_true in Hne. rewrite Hne, Hparse. subst entry.
    by rewrite (summarizable_page_url p m md Hs). }
  split; [by rewrite Hitem|].
  rewrite format_loop_cons. unfold bind. rewrite Hitem. reflexivity.
Qed.

Lemma format_stores_parsed_reply_witness :
  let cap := Examples.cap_with (Return Examples.one_page)
               Examples.number_reply Examples.loads_number in
  let entry := {| e_url := page_url Examples.page_a; e_response := JNum 42 |} in
  value (format_item cap Examples.page_a [] tt) = Return ([] ++ [entry])
  /\ value (format_loop cap [Examples.page_a] [] tt)
     = value (format_loop cap [] ([] ++ [entry]) tt).
Proof.
  apply (format_stores_parsed_reply
           (Examples.cap_with (Return Examples.one_page)
              Examples.number_reply Examples.loads_number)
           Examples.page_a Examples.meta_a "Hello world" [] [] tt tt
           {| content := "42" |} (JNum 42)).
  - split; [reflexivity | split; [reflexivity | discriminate]].
  - reflexivity.
  - discriminate.
  - reflexivity.
Defined.

(** X8. When the model raises on a page, [format] stops there: the
    exception leaves the loop after that call, no later page is sent, and
    the entries built so far are not returned. *)
Theorem format_stops_at_model_fault
    {World : Type} (cap : Capabilities World)
    (p : Document) (m : Metadata) (md : string)
    (acc : list Entry) (rest : list Document) (w w' : World) (e : PyExc) :
  summarizable p m md ->
  llm_invoke cap (prompt (truncate_markdown md)) w = (Raise e, w') ->
  format_loop cap (p :: rest) acc w
  = {| trace := [EvLlmInvoke (prompt (truncate_markdown md))];
       world := w'; value := Raise e |}
  /\ (forall state,
        scraped_data state = p :: rest ->
        value (format cap state w) = Raise e).
Proof.
  intros Hs Hcall.
  assert (Hloop : forall acc0, format_loop cap (p :: rest) acc0 w
          = {| trace := [EvLlmInvoke (prompt (truncate_markdown md))];
               world := w'; value := Raise e |}).
  { intros acc0. rewrite format_loop_cons. unfold bind.
    rewrite (format_item_run cap p m md acc0 w _ w' Hs Hcall). reflexivity. }
  split; [apply Hloop|].
  intros state Hpages. unfold format. rewrite Hpages. simpl list_truthy.
  cbv iota. unfold bind at 1. rewrite Hloop. reflexivity.
Qed.

Lemma format_stops_at_model_fault_witness :
  let cap := Examples.cap_with (Return Examples.one_page)
               (Raise (OtherError "quota")) (fun _ => None) in
  format_loop cap [Examples.page_a; Examples.page_long] [] tt
  = {| trace := [EvLlmInvoke (prompt (truncate_markdown "Hello world"))];
       world := tt; value := Raise (OtherError "quota") |}
  /\ (forall state,
        scraped_data state = [Examples.page_a; Examples.page_long] ->
        value (format cap state tt) = Raise (OtherError "quota")).
Proof.
  apply (format_stops_at_model_fault
           (Examples.cap_with (Return Examples.one_page)
              (Raise (OtherError "quota")) (fun _ => None))
           Examples.page_a Examples.meta_a "Hello world" []
           [Examples.page_long] tt tt (OtherError "quota")).
  - split; [reflexivity | split; [reflexivity | discriminate]].
  - reflexivity.
Defined.

(** X9. A page without metadata, or without markdown, or with empty
    markdown, costs no call and leaves no entry: the loop does with it what
    it does without it. *)
Theorem format_skips_page_without_content
    {World : Type} (cap : Capabilities World)
    (p : Document) (acc : list Entry) (rest : list Document) (w : World) :
  doc_metadata p = NoAttr \/ doc_metadata p = AttrNone
  \/ doc_markdown p = NoAttr \/ doc_markdown p = AttrNone
  \/ doc_markdown p = Attr "" ->
  format_loop cap (p :: rest) acc w = format_loop cap rest acc w.
Proof.
  intros Hp.
  assert (Hno : forall m md, ~ summarizable p m md).
  { intros m md (Hm & Hmd & Hne).
    destruct Hp as [H | [H | [H | [H | H]]]];
      rewrite H in *; simpl in *; congruence. }
  rewrite format_loop_cons. unfold bind.
  rewrite (format_item_skip cap p acc w Hno). simpl.
  destruct (format_loop cap rest acc w) as [tr w1 v]. simpl.
  by destruct v.
Qed.

Lemma format_skips_page_without_content_witness :
  format_loop (Examples.cap_with (Return Examples.one_page)
                 Examples.prose_reply Examples.loads_empty_object)
              [Examples.page_bare; Examples.page_a] [] tt
  = format_loop (Examples.cap_with (Return Examples.one_page)
                   Examples.prose_reply Examples.loads_empty_object)
                [Examples.page_a] [] tt.
Proof.
  apply (format_skips_page_without_content
           (Examples.cap_with (Return Examples.one_page)
              Examples.prose_reply Examples.loads_empty_object)
           Examples.page_bare [] [Examples.page_a] tt).
  left. reflexivity.
Defined.

Lemma str_take_take (n k : nat) (s : string) :
  str_take n (str_take k s) = str_take (Nat.min n k) s.
Proof.
  revert k s. induction n as [|n IH]; intros [|k] [|c s]; simpl; try done.
  by rewrite IH.
Qed.

(** X10. The description of a fallback summary is the first 200 characters
    of the markdown as fetched: the cut at 2000 before the call changes
    nothing of it, and it is never longer than 200. *)
Theorem fallback_description_of_markdown (url : option string) (md : string) :
  fallback_entry url (truncate_markdown md) = fallback_entry url md
  /\ (String.length (str_take 200 md) <= 200)%nat.
Proof.
  split; [|rewrite str_take_length; lia].
  unfold fallback_entry. do 4 f_equal.
  destruct (Nat.lt_ge_cases 2000 (String.length md)) as [Hlong | Hshort].
  - rewrite truncate_markdown_long by done. by rewrite str_take_take.
  - by rewrite truncate_markdown_short.
Qed.

(** ** The fenced block *)

Lemma lazy_body_shape (s b : string) :
  lazy_body s = Some b -> exists body, b = body +:+ "}".
Proof.
  revert b. induction s as [|c s IH]; intros b; simpl; [done|].
  destruct (Ascii.eqb c "}" && fence_closes s) eqn:Hc.
  - intros [= <-]. apply andb_prop in Hc as [Hc _].
    apply Ascii.eqb_eq in Hc as ->. by exists "".
  - destruct (lazy_body s) as [b'|]; [|done].
    intros [= <-]. destruct (IH b' eq_refl) as [body ->].
    by exists (String c body).
Qed.

Lemma fence_match_at_shape (s g : string) :
  fence_match_at s = Some g -> exists body, g = String "{" (body +:+ "}").
Proof.
  unfold fence_match_at.
  destruct (strip_prefix fence s) as [after_fence|]; [|done].
  destruct (lstrip _) as [|c body]; [done|].
  destruct (Ascii.eqb c "{") eqn:Hc; [|done].
  apply Ascii.eqb_eq in Hc as ->.
  destruct (lazy_body body) as [b|] eqn:Hb; [|done].
  intros [= <-]. apply lazy_body_shape in Hb as [body' ->]. by exists body'.
Qed.

(** X11. What [re.search] takes out of a reply is an object in braces:
    group 1 starts with an opening brace and ends with a closing one. *)
Theorem json_fence_search_braces (s g : string) :
  json_fence_search s = Some g ->
  exists body, g = "{" +:+ body +:+ "}".
Proof.
  induction s as [|c s IH]; simpl.
  - done.
  - destruct (fence_match_at (String c s)) as [g'|] eqn:Hm; [|exact IH].
    intros [= <-]. by apply fence_match_at_shape in Hm.
Qed.

Lemma json_fence_search_braces_witness :
  exists body, "{}" = "{" +:+ body +:+ "}".
Proof.
  apply (json_fence_search_braces " ```json
{}
``` " "{}").
  reflexivity.
Defined.

Lemma no_backquote_no_fence (s : string) :
  no_backquote s = true -> strip_prefix fence s = None.
Proof.
  destruct s as [|c s]; [done|]. unfold no_backquote. cbn [str_all].
  intros H. apply andb_prop in H as [Hc _]. apply negb_true_iff in Hc.
  change (strip_prefix fence (String c s))
    with (if Ascii.eqb "`" c then strip_prefix "``" s else None).
  rewrite Ascii.eqb_sym. by rewrite Hc.
Qed.

Lemma str_all_lstrip P (s : string) :
  str_all P s = true -> str_all P (lstrip s) = true.
Proof.
  induction s as [|c s IH]; simpl; [done|].
  intros H. destruct (is_space c); [|exact H].
  apply andb_prop in H as [_ H]. by apply IH.
Qed.

Lemma str_all_rstrip P (s : string) :
  str_all P s = true -> str_all P (rstrip s) = true.
Proof.
  induction s as [|c s IH]; simpl; [done|].
  intros H. apply andb_prop in H as [Hc H]. specialize (IH H).
  destruct (rstrip s) as [|c' r].
  - destruct (is_space c); simpl; [done | by rewrite Hc].
  - simpl in *. by rewrite Hc, IH.
Qed.

Lemma no_backquote_search (s : string) :
  no_backquote s = true -> json_fence_search s = None.
Proof.
  induction s as [|c s IH]; intros H.
  - reflexivity.
  - simpl. unfold fence_match_at at 1.
    rewrite (no_backquote_no_fence _ H).
    unfold no_backquote in H. simpl in H.
    apply andb_prop in H as [_ H]. by apply IH.
Qed.

(** X12. A reply without a backquote has no fenced block: [json.loads]
    gets the reply stripped, and nothing else is tried. *)
Theorem parse_response_without_fence
    {World : Type} (cap : Capabilities World) (reply : string) :
  no_backquote reply = true ->
  json_fence_search (strip reply) = None
  /\ parse_response cap reply = json_loads cap (strip reply).
Proof.
  intros H.
  assert (Hs : json_fence_search (strip reply) = None).
  { apply no_backquote_search. unfold no_backquote, strip.
    by apply str_all_rstrip, str_all_lstrip. }
  split; [exact Hs|]. unfold parse_response. by rewrite Hs.
Qed.

Lemma parse_response_without_fence_witness :
  json_fence_search (strip "  {} ") = None
  /\ parse_response (Examples.cap_with (Return Examples.one_page)
                       Examples.prose_reply Examples.loads_empty_object)
                    "  {} "
     = json_loads (Examples.cap_with (Return Examples.one_page)
                     Examples.prose_reply Examples.loads_empty_object)
                  (strip "  {} ").
Proof.
  apply (parse_response_without_fence
           (Examples.cap_with (Return Examples.one_page)
              Examples.prose_reply Examples.loads_empty_object) "  {} ").
  reflexivity.
Defined.

Lemma append_cons (c : ascii) (a b : string) :
  String c a +:+ b = String c (a +:+ b).
Proof. reflexivity. Qed.

Lemma append_empty (b : string) : "" +:+ b = b.
Proof. reflexivity. Qed.

Lemma strip_prefix_app (p s : string) : strip_prefix p (p +:+ s) = Some s.
Proof.
  induction p as [|c p IH]; [by destruct s|].
  rewrite append_cons. cbn [strip_prefix]. by rewrite Ascii.eqb_refl.
Qed.

Lemma lstrip_space_app (ws r : string) :
  all_space ws = true -> lstrip (ws +:+ r) = lstrip r.
Proof.
  unfold all_space. induction ws as [|c ws IH]; [done|].
  rewrite append_cons. cbn [str_all lstrip].
  intros H. apply andb_prop in H as [Hc H]. rewrite Hc. by apply IH.
Qed.

Lemma fence_closes_after_space (ws post : string) :
  all_space ws = true -> fence_closes (ws +:+ fence +:+ post) = true.
Proof.
  intros H. unfold fence_closes. rewrite lstrip_space_app by done.
  change (lstrip (fence +:+ post)) with (fence +:+ post).
  by rewrite strip_prefix_app.
Qed.

Lemma fence_closes_inside (inner r : string) :
  no_backquote inner = true ->
  fence_closes (inner +:+ String "}" r) = false.
Proof.
  unfold no_backquote, fence_closes.
  induction inner as [|c inner IH]; [done|].
  rewrite append_cons. cbn [str_all lstrip]. intros H.
  apply andb_prop in H as [Hc H]. apply negb_true_iff in Hc.
  destruct (is_space c); [by apply IH|].
  change (strip_prefix fence (String c (inner +:+ String "}" r)))
    with (if Ascii.eqb "`" c
          then strip_prefix "``" (inner +:+ String "}" r) else None).
  rewrite Ascii.eqb_sym. by rewrite Hc.
Qed.

Lemma lazy_body_unwraps (inner ws post : string) :
  no_backquote inner = true -> all_space ws = true ->
  lazy_body (inner +:+ String "}" (ws +:+ fence +:+ post))
  = Some (inner +:+ "}").
Proof.
  intros Hin Hws. induction inner as [|c inner IH].
  - rewrite append_empty. cbn [lazy_body]. rewrite Ascii.eqb_refl.
    by rewrite fence_closes_after_space.
  - rewrite !append_cons. cbn [lazy_body].
    unfold no_backquote in Hin. cbn [str_all] in Hin.
    apply andb_prop in Hin as [_ Hin].
    rewrite (fence_closes_inside inner _ Hin), andb_false_r.
    by rewrite (IH Hin).
Qed.

Lemma json_tag_absent (ws r : string) :
  all_space ws = true -> strip_prefix "json" (ws +:+ String "{" r) = None.
Proof.
  unfold all_space. destruct ws as [|c ws]; [done|].
  rewrite append_cons. cbn [str_all]. intros H.
  apply andb_prop in H as [Hc _].
  change (strip_prefix "json" (String c (ws +:+ String "{" r)))
    with (if Ascii.eqb "j" c
          then strip_prefix "son" (ws +:+ String "{" r) else None).
  destruct (Ascii.eqb_spec "j" c) as [<-|]; [done | done].
Qed.

Lemma json_fence_search_here (s g : string) :
  fence_match_at s = Some g -> json_fence_search s = Some g.
Proof.
  intros H. destruct s as [|c s]; [by vm_compute in H|].
  cbn [json_fence_search]. by rewrite H.
Qed.

(** X13. A reply that opens with a fenced block, with or without the
    [json] tag, is unwrapped to the object inside, whatever follows the
    block, as long as the object holds no backquote. *)
Theorem json_fence_search_unwraps (tag ws inner ws' post : string) :
  tag = "" \/ tag = "json" ->
  all_space ws = true ->
  all_space ws' = true ->
  no_backquote inner = true ->
  json_fence_search
    (fence +:+ tag +:+ ws +:+ "{" +:+ inner +:+ "}" +:+ ws' +:+ fence +:+ post)
  = Some ("{" +:+ inner +:+ "}").
Proof.
  intros Htag Hws Hws' Hin. apply json_fence_search_here.
  unfold fence_match_at. rewrite strip_prefix_app.
  assert (Htagged :
    match strip_prefix "json"
            (tag +:+ ws +:+ "{" +:+ inner +:+ "}" +:+ ws' +:+ fence +:+ post)
    with
    | Some r => r
    | None => tag +:+ ws +:+ "{" +:+ inner +:+ "}" +:+ ws' +:+ fence +:+ post
    end = ws +:+ String "{" (inner +:+ String "}" (ws' +:+ fence +:+ post))).
  { destruct Htag as [-> | ->].
    - change ("" +:+ ws +:+ "{" +:+ inner +:+ "}" +:+ ws' +:+ fence +:+ post)
        with (ws +:+ String "{" (inner +:+ String "}" (ws' +:+ fence +:+ post))).
      by rewrite json_tag_absent.
    - by rewrite strip_prefix_app. }
  rewrite Htagged. rewrite lstrip_space_app by done.
  change (lstrip (String "{" (inner +:+ String "}" (ws' +:+ fence +:+ post))))
    with (String "{" (inner +:+ String "}" (ws' +:+ fence +:+ post))).
  cbv beta iota. rewrite Ascii.eqb_refl. by rewrite lazy_body_unwraps.
Qed.

Lemma json_fence_search_unwraps_witness :
  json_fence_search
    (fence +:+ "json" +:+ " " +:+ "{" +:+ "}, {" +:+ "}" +:+ "  " +:+ fence
     +:+ " and more")
  = Some ("{" +:+ "}, {" +:+ "}").
Proof.
  apply (json_fence_search_unwraps "json" " " "}, {" "  " " and more");
    [right; reflexivity | reflexivity | reflexivity | reflexivity].
Defined.

(** ** What the stage bodies leave alone *)

Lemma format_returns {World : Type} (cap : Capabilities World)
    (state : GraphState) (w : World) state' :
  value (format cap state w) = Return state' ->
  exists out, state' = set_formatted_data out state.
Proof.
  unfold format, bind.
  destruct (value ((if list_truthy (scraped_data state)
                    then format_loop cap (scraped_data state) []
                    else ret []) w)) as [out|e]; simpl; [|done].
  intros [= <-]. eauto.
Qed.

(** X14. No stage body writes the retry bookkeeping or the seed URL:
    whatever [crawl], [scrap] or [format] returns has the [url], [error],
    [retry_count] and [failed_node] it was given; and when [save] returns a
    state, it is the state it was given. *)
Theorem stage_bodies_keep_bookkeeping
    {World : Type} (cap : Capabilities World)
    (state : GraphState) (w : World) :
  (forall state',
     value (crawl cap state w) = Return state'
     \/ value (scrap cap state w) = Return state'
     \/ value (format cap state w) = Return state' ->
     url state' = url state
     /\ error state' = error state
     /\ retry_count state' = retry_count state
     /\ failed_node state' = failed_node state)
  /\ (forall state',
        value (save cap state w) = Return (StateDict state') ->
        state' = state).
Proof.
  split.
  - intros state' [H | [H | H]].
    + apply crawl_returns in H as (_ & batches & ->). done.
    + apply scrap_returns in H
        as [[-> _] | (batch & rest & pages & _ & _ & -> & _)]; done.
    + apply format_returns in H as (out & ->). done.
  - intros state'. unfold save.
    destruct (str_truthy (url state) && list_truthy (formatted_data state)).
    + unfold bind, call.
      destruct (write_json cap _ _ w) as [[[]|e] w1]; simpl; done.
    + simpl. by intros [= <-].
Qed.

(** * Further properties of the job API *)

(** X15. A job just created is found by [get_job_status] as a pending job
    with neither completion time, result nor error; [get_job_result]
    answers 425 for it; no other job is touched. *)
Theorem create_scrape_job_then_status
    (job_id url_str now : string) (store : gmap string Job) :
  let created :=
    {| j_job_id := job_id; j_url := url_str; j_status := PENDING;
       j_created_at := now; j_completed_at := None;
       j_result := ResultNone; j_error := None |} in
  let store' := fst (create_scrape_job job_id url_str now store) in
  get_job_status job_id store' = (store', Return created)
  /\ (forall format_status validate,
        get_job_result format_status validate job_id store'
        = (store',
           Raise (HTTPException 425
                    ("Job is still " +:+ format_status PENDING
                     +:+ ". Please wait for completion."))))
  /\ (forall other, other <> job_id -> store' !! other = store !! other).
Proof.
  intros created store'. subst store'. unfold create_scrape_job. simpl fst.
  fold created. split; [|split].
  - unfold get_job_status. by rewrite lookup_insert_eq.
  - intros format_status validate. unfold get_job_result.
    by rewrite lookup_insert_eq.
  - intros other Hne. by rewrite lookup_insert_ne.
Qed.

(** X16. [delete_job] answers 404 for an unknown id and leaves the store as
    it is; for a known id it removes that job and no other, after which
    [get_job_status] and a second [delete_job] answer 404. *)
Theorem delete_job_removes_one (job_id : string) (store : gmap string Job) :
  (store !! job_id = None ->
   delete_job job_id store
   = (store, Raise (HTTPException 404 "Job not found")))
  /\ (forall job,
        store !! job_id = Some job ->
        let store' := fst (delete_job job_id store) in
        snd (delete_job job_id store)
        = Return ("Job deleted successfully", job_id)
        /\ store' !! job_id = None
        /\ (forall other, other <> job_id -> store' !! other = store !! other)
        /\ get_job_status job_id store'
           = (store', Raise (HTTPException 404 "Job not found"))
        /\ delete_job job_id store'
           = (store', Raise (HTTPException 404 "Job not found"))).
Proof.
  split.
  - intros H. unfold delete_job. by rewrite H.
  - intros job H store'. subst store'.
    assert (Heq : delete_job job_id store
                  = (delete job_id store,
                     Return ("Job deleted successfully", job_id))).
    { unfold delete_job. by rewrite H. }
    rewrite Heq. simpl.
    assert (Hgone : delete job_id store !! job_id = None)
      by apply lookup_delete_eq.
    split; [done|]. split; [done|]. split.
    + intros other Hne. by rewrite lookup_delete_ne.
    + unfold get_job_status, delete_job. by rewrite Hgone.
Qed.

Section RunJob.
Variable str_exc : PyExc -> string.

(** The record of a finished run in the job that was in the store when the
    graph came back. *)
Lemma run_scraping_job_run (job_id url now : string)
    (graph_invoke : outcome GraphResult)
    (meanwhile : gmap string Job -> gmap string Job)
    (store : gmap string Job) (job job' : Job) :
  store !! job_id = Some job ->
  meanwhile (<[job_id := with_status RUNNING job]> store) !! job_id
    = Some job' ->
  run_scraping_job str_exc job_id url graph_invoke meanwhile now store
  = (<[job_id :=
        match graph_invoke with
        | Return result =>
            with_result (result_or_empty result)
              (with_completed_at (Some now) (with_status COMPLETED job'))
        | Raise e =>
            with_error (Some (str_exc e))
              (with_completed_at (Some now) (with_status FAILED job'))
        end]>
       (meanwhile (<[job_id := with_status RUNNING job]> store)),
     Return tt).
Proof.
  intros Hjob Hstill. unfold run_scraping_job, try_except, jbind.
  rewrite (setitem_present _ _ _ _ Hjob).
  set (m := meanwhile (<[job_id := with_status RUNNING job]> store)) in *.
  destruct graph_invoke as [result|e]; cbn beta iota;
    rewrite (setitem_present _ _ m _ Hstill);
    rewrite (setitem_present _ _ (<[job_id := _]> m) _
               (lookup_insert_eq _ _ _));
    rewrite (setitem_present _ _ (<[job_id := _]> (<[job_id := _]> m)) _
               (lookup_insert_eq _ _ _));
    by rewrite !insert_insert_eq.
Qed.

End RunJob.

(** X17. A run whose job is in the store at the start and still there when
    the graph comes back ends without an exception, and the job is then
    either completed, with the result or an empty dict, or failed, with the
    error text; either way its completion time is set. The other jobs are
    as the other coroutines left them. *)
Theorem run_scraping_job_records_outcome
    (str_exc : PyExc -> string) (job_id url now : string)
    (graph_invoke : outcome GraphResult)
    (meanwhile : gmap string Job -> gmap string Job)
    (store : gmap string Job) (job job' : Job) :
  store !! job_id = Some job ->
  meanwhile (<[job_id := with_status RUNNING job]> store) !! job_id
    = Some job' ->
  exists final finished,
    run_scraping_job str_exc job_id url graph_invoke meanwhile now store
    = (final, Return tt)
    /\ final !! job_id = Some finished
    /\ j_completed_at finished = Some now
    /\ match graph_invoke with
       | Return result =>
           j_status finished = COMPLETED
           /\ j_result finished = result_or_empty result
           /\ j_error finished = j_error job'
       | Raise e =>
           j_status finished = FAILED
           /\ j_error finished = Some (str_exc e)
           /\ j_result finished = j_result job'
       end
    /\ (forall other,
          other <> job_id ->
          final !! other
          = meanwhile (<[job_id := with_status RUNNING job]> store) !! other).
Proof.
  intros Hjob Hstill.
  rewrite (run_scraping_job_run str_exc job_id url now graph_invoke meanwhile
             store job job' Hjob Hstill).
  eexists _, _. split; [reflexivity|]. split; [apply lookup_insert_eq|].
  split; [by destruct graph_invoke|]. split; [by destruct graph_invoke|].
  intros other Hne. by rewrite lookup_insert_ne.
Qed.

Lemma run_scraping_job_records_outcome_witness :
  exists final finished,
    run_scraping_job Examples.describe "job-1" "https://example.com/"
      (Raise (OtherError "quota exceeded")) (fun s => s)
      "2026-01-01T00:00:09" Examples.store_pending
    = (final, Return tt)
    /\ final !! "job-1" = Some finished
    /\ j_completed_at finished = Some "2026-01-01T00:00:09"
    /\ (j_status finished = FAILED
        /\ j_error finished = Some (Examples.describe (OtherError "quota exceeded"))
        /\ j_result finished
           = j_result (with_status RUNNING Examples.pending_job))
    /\ (forall other,
          other <> "job-1" ->
          final !! other
          = (<["job-1" := with_status RUNNING Examples.pending_job]>
               Examples.store_pending) !! other).
Proof.
  apply (run_scraping_job_records_outcome Examples.describe
           "job-1" "https://example.com/" "2026-01-01T00:00:09"
           (Raise (OtherError "quota exceeded")) (fun s => s)
           Examples.store_pending Examples.pending_job
           (with_status RUNNING Examples.pending_job)).
  - reflexivity.
  - apply lookup_insert_eq.
Defined.

(** X18. A run whose job is not in the store when it starts raises
    [KeyError] at once, from the handler, and leaves the store as it is. *)
Theorem run_scraping_job_unknown_job
    (str_exc : PyExc -> string) (job_id url now : string)
    (graph_invoke : outcome GraphResult)
    (meanwhile : gmap string Job -> gmap string Job)
    (store : gmap string Job) :
  store !! job_id = None ->
  run_scraping_job str_exc job_id url graph_invoke meanwhile now store
  = (store, Raise (KeyError job_id)).
Proof.
  intros Hnone. unfold run_scraping_job, try_except, jbind.
  by rewrite !(setitem_missing _ _ _ Hnone).
Qed.

Lemma run_scraping_job_unknown_job_witness :
  run_scraping_job Examples.describe "job-2" "https://example.com/"
    (Return None) (fun s => s) "2026-01-01T00:00:09" Examples.store_pending
  = (Examples.store_pending, Raise (KeyError "job-2")).
Proof.
  apply (run_scraping_job_unknown_job Examples.describe "job-2"
           "https://example.com/" "2026-01-01T00:00:09" (Return None)
           (fun s => s) Examples.store_pending).
  reflexivity.
Defined.

(** X19. After such a run, [get_job_result] answers with the validated
    result when the graph returned one, with 404 "No result found" when the
    graph returned none, although the job is completed, and with 500 and
    the error text when the graph raised. *)
Theorem get_job_result_after_run
    (str_exc : PyExc -> string) (format_status : JobStatus -> string)
    (validate : Output -> outcome Output)
    (job_id url now : string) (graph_invoke : outcome GraphResult)
    (meanwhile : gmap string Job -> gmap string Job)
    (store : gmap string Job) (job job' : Job) :
  store !! job_id = Some job ->
  meanwhile (<[job_id := with_status RUNNING job]> store) !! job_id
    = Some job' ->
  let final :=
    fst (run_scraping_job str_exc job_id url graph_invoke meanwhile now
           store) in
  snd (get_job_result format_status validate job_id final)
  = match graph_invoke with
    | Return (Some output) => validate output
    | Return None =>
        Raise (HTTPException 404 "No result found for this job")
    | Raise e => Raise (HTTPException 500 ("Job failed: " +:+ str_exc e))
    end.
Proof.
  intros Hjob Hstill final. subst final.
  rewrite (run_scraping_job_run str_exc job_id url now graph_invoke meanwhile
             store job job' Hjob Hstill).
  simpl fst. unfold get_job_result. rewrite lookup_insert_eq.
  destruct graph_invoke as [[output|]|e]; reflexivity.
Qed.

Lemma get_job_result_after_run_witness :
  snd (get_job_result (fun _ => "running") Return "job-1"
         (fst (run_scraping_job Examples.describe "job-1"
                 "https://example.com/" (Return None) (fun s => s)
                 "2026-01-01T00:00:09" Examples.store_pending)))
  = Raise (HTTPException 404 "No result found for this job").
Proof.
  apply (get_job_result_after_run Examples.describe (fun _ => "running")
           Return "job-1" "https://example.com/" "2026-01-01T00:00:09"
           (Return None) (fun s => s) Examples.store_pending
           Examples.pending_job (with_status RUNNING Examples.pending_job)).
  - reflexivity.
  - apply lookup_insert_eq.
Defined.

(** When the await of [scrape_sync] comes back, with a value or with an
    [Exception]: an exception that leaves is an [HTTPException] with status
    500, and what is returned is what the validation made of a result the
    graph returned. *)
Lemma scrape_sync_resumed
    (str_exc : PyExc -> string) (validate : Output -> outcome Output)
    (graph_invoke : outcome GraphResult) :
  (forall e,
     scrape_sync str_exc validate graph_invoke = Raise e ->
     exists detail, e = HTTPException 500 detail)
  /\ (forall response,
        scrape_sync str_exc validate graph_invoke = Return response ->
        exists output,
          graph_invoke = Return (Some output)
          /\ validate output = Return response).
Proof.
  unfold scrape_sync. split.
  - intros e.
    destruct graph_invoke as [[output|]|e0];
      [destruct (validate output) | |]; intros [= <-]; eauto.
  - intros response.
    destruct graph_invoke as [[output|]|e0]; [|done|done].
    destruct (validate output) eqn:Hv; [|done].
    intros [= <-]. eauto.
Qed.

(** ** Listing *)

(** ** Listing *)

Lemma ltb_leb (a b : string) : String.ltb a b = true -> String.leb a b = true.
Proof. unfold String.ltb, String.leb. by destruct (String.compare a b). Qed.

Lemma not_ltb_leb (a b : string) :
  String.ltb a b = false -> String.leb b a = true.
Proof.
  unfold String.ltb, String.leb. rewrite (String.compare_antisym a b).
  by destruct (String.compare b a).
Qed.

Lemma insert_desc_perm (job : Job) (l : list Job) :
  Permutation (insert_desc job l) (job :: l).
Proof.
  induction l as [|k l IH]; simpl; [reflexivity|].
  destruct (String.ltb _ _); [|reflexivity].
  rewrite IH. apply perm_swap.
Qed.

Lemma sort_created_desc_perm (l : list Job) :
  Permutation (sort_created_desc l) l.
Proof.
  induction l as [|job l IH]; simpl; [reflexivity|].
  rewrite insert_desc_perm. by constructor.
Qed.

Lemma insert_desc_sorted (job : Job) (l : list Job) :
  Sorted created_not_before l ->
  Sorted created_not_before (insert_desc job l).
Proof.
  induction l as [|k l IH]; intros Hs; simpl.
  - repeat constructor.
  - apply Sorted_inv in Hs as [Hs Hhd].
    destruct (String.ltb (j_created_at job) (j_created_at k)) eqn:Hlt.
    + constructor; [by apply IH|].
      destruct l as [|k' l]; simpl.
      * constructor. by apply ltb_leb.
      * destruct (String.ltb (j_created_at job) (j_created_at k')).
        -- constructor. by apply HdRel_inv in Hhd.
        -- constructor. by apply ltb_leb.
    + constructor; [by constructor|]. constructor. by apply not_ltb_leb.
Qed.

Lemma sort_created_desc_sorted (l : list Job) :
  Sorted created_not_before (sort_created_desc l).
Proof.
  induction l as [|job l IH]; simpl; [constructor|].
  by apply insert_desc_sorted.
Qed.

Lemma take_sorted (n : nat) (l : list Job) :
  Sorted created_not_before l -> Sorted created_not_before (take n l).
Proof.
  revert l. induction n as [|n IH]; intros [|k l] Hs; simpl;
    try constructor.
  - apply IH. by apply Sorted_inv in Hs as [Hs _].
  - apply Sorted_inv in Hs as [_ Hhd].
    destruct l as [|k' l]; destruct n; simpl; constructor.
    by apply HdRel_inv in Hhd.
Qed.

Lemma JobStatus_eqb_eq (a b : JobStatus) :
  JobStatus_eqb a b = true -> a = b.
Proof. by destruct a, b. Qed.

Lemma list_jobs_take (status : option JobStatus) (limit : Z)
    (values : list Job) :
  snd (list_jobs status limit values)
  = py_slice_to
      (sort_created_desc
         match status with
         | Some wanted =>
             List.filter (fun job => JobStatus_eqb (j_status job) wanted)
                         values
         | None => values
         end) limit
  /\ fst (list_jobs status limit values)
     = Z.of_nat (length (snd (list_jobs status limit values))).
Proof. done. Qed.

Lemma matching_length (status : option JobStatus) (values : list Job) :
  (length match status with
          | Some wanted =>
              List.filter (fun job => JobStatus_eqb (j_status job) wanted)
                          values
          | None => values
          end <= length values)%nat.
Proof. destruct status; [apply List.filter_length_le | done]. Qed.

(** X21. [list_jobs] returns at most [limit] jobs, so at most 100, and its
    [total] is the number of jobs it returns, not the number of jobs that
    match. *)
Theorem list_jobs_bounded (status : option JobStatus) (limit : Z)
    (values : list Job) :
  1 <= limit <= 100 ->
  fst (list_jobs status limit values)
  = Z.of_nat (length (snd (list_jobs status limit values)))
  /\ fst (list_jobs status limit values) <= limit
  /\ fst (list_jobs status limit values) <= 100
  /\ fst (list_jobs status limit values) <= Z.of_nat (length values).
Proof.
  intros Hlimit.
  destruct (list_jobs_take status limit values) as [Hjobs Htotal].
  rewrite Htotal, Hjobs, py_slice_to_take.
  assert (Hk : (limit <? 0) = false) by (apply Z.ltb_ge; lia).
  rewrite Hk, length_take.
  rewrite (Permutation_length (sort_created_desc_perm _)).
  pose proof (matching_length status values). lia.
Qed.

Lemma list_jobs_bounded_witness :
  fst (list_jobs None 1 [Examples.pending_job; Examples.failed_job])
  = Z.of_nat
      (length (snd (list_jobs None 1
                      [Examples.pending_job; Examples.failed_job])))
  /\ fst (list_jobs None 1 [Examples.pending_job; Examples.failed_job]) <= 1
  /\ fst (list_jobs None 1 [Examples.pending_job; Examples.failed_job]) <= 100
  /\ fst (list_jobs None 1 [Examples.pending_job; Examples.failed_job])
     <= Z.of_nat (length [Examples.pending_job; Examples.failed_job]).
Proof.
  apply (list_jobs_bounded None 1 [Examples.pending_job; Examples.failed_job]).
  lia.
Defined.

(** X22. The jobs [list_jobs] returns are jobs of the store, all with the
    status asked for, if one was, and listed from the latest creation time
    to the earliest. *)
Theorem list_jobs_sorted_and_filtered (status : option JobStatus) (limit : Z)
    (values : list Job) :
  Sorted created_not_before (snd (list_jobs status limit values))
  /\ forall job,
      In job (snd (list_jobs status limit values)) ->
      In job values
      /\ forall wanted, status = Some wanted -> j_status job = wanted.
Proof.
  destruct (list_jobs_take status limit values) as [-> _].
  rewrite py_slice_to_take. split.
  - apply take_sorted, sort_created_desc_sorted.
  - intros job Hin.
    apply list_elem_of_In, elem_of_take in Hin as (i & Hi & _).
    apply list_elem_of_lookup_2, list_elem_of_In in Hi.
    apply (Permutation_in _ (sort_created_desc_perm _)) in Hi.
    destruct status as [wanted|].
    + apply filter_In in Hi as [Hin Hst]. split; [done|].
      intros wanted' [= <-]. by apply JobStatus_eqb_eq.
    + split; [done | discriminate].
Qed.

(** X23. When the jobs that match are no more than [limit], [list_jobs]
    returns every one of them once, and [total] is their number. *)
Theorem list_jobs_complete_within_limit (status : option JobStatus)
    (limit : Z) (values : list Job) :
  let matching :=
    match status with
    | Some wanted =>
        List.filter (fun job => JobStatus_eqb (j_status job) wanted) values
    | None => values
    end in
  Z.of_nat (length matching) <= limit ->
  Permutation (snd (list_jobs status limit values)) matching
  /\ fst (list_jobs status limit values) = Z.of_nat (length matching).
Proof.
  intros matching Hfit.
  destruct (list_jobs_take status limit values) as [Hjobs Htotal].
  rewrite Htotal, Hjobs. fold matching. rewrite py_slice_to_take.
  assert (Hk : (limit <? 0) = false) by (apply Z.ltb_ge; lia).
  rewrite Hk.
  assert (Hlen : length (sort_created_desc matching) = length matching)
    by apply Permutation_length, sort_created_desc_perm.
  rewrite take_ge by lia. split; [apply sort_created_desc_perm|].
  by rewrite Hlen.
Qed.

Lemma list_jobs_complete_within_limit_witness :
  Permutation
    (snd (list_jobs (Some FAILED) 10
            [Examples.pending_job; Examples.failed_job]))
    [Examples.failed_job]
  /\ fst (list_jobs (Some FAILED) 10
            [Examples.pending_job; Examples.failed_job])
     = Z.of_nat (length [Examples.failed_job]).
Proof.
  apply (list_jobs_complete_within_limit (Some FAILED) 10
           [Examples.pending_job; Examples.failed_job]).
  vm_compute. discriminate.
Defined.

(** ** Composition *)

(** X24. One FetchBatch then Summarize cycle, when both return: if pages
    were fetched, the first batch is gone and there is at most one summary
    for each page; if none were, the batches are as before and
    [formatted_data] is empty, so the cycle has made no progress. *)
Theorem fetch_then_summarize
    {World : Type} (cap : Capabilities World)
    (state : GraphState) (w : World) (fetched summarized : GraphState) :
  value (scrap cap state w) = Return fetched ->
  value (format cap fetched (world (scrap cap state w))) = Return summarized ->
  scraped_data summarized = scraped_data fetched
  /\ (length (formatted_data summarized) <= length (scraped_data fetched))%nat
  /\ (scraped_data fetched <> [] ->
      exists batch, url_batches state = batch :: url_batches summarized)
  /\ (scraped_data fetched = [] ->
      url_batches summarized = url_batches state
      /\ formatted_data summarized = []).
Proof.
  intros Hscrap Hformat.
  destruct (format_entries_of_pages cap fetched
              (world (scrap cap state w)) summarized Hformat)
    as (kept & Hsub & Hurls).
  apply format_returns in Hformat as (out & ->). simpl in *.
  split; [done|]. split.
  - apply (f_equal length) in Hurls. rewrite !length_map in Hurls.
    rewrite Hurls. by apply sublist_length.
  - destruct (scrap_returns cap state w fetched Hscrap)
      as [[-> _] | (batch & rest & pages & Hb & Hne & -> & _)]; simpl in *.
    + split; [done|]. intros _. split; [done|].
      apply sublist_nil_r in Hsub as ->. simpl in Hurls.
      by destruct out.
    + split; [intros _; by exists batch | done].
Qed.

Lemma fetch_then_summarize_witness :
  let cap := Examples.cap_with (Return Examples.no_data)
               Examples.prose_reply Examples.loads_empty_object in
  let fetched := set_scraped_data [] Examples.state_one_batch in
  let summarized := set_formatted_data [] fetched in
  scraped_data summarized = scraped_data fetched
  /\ (length (formatted_data summarized) <= length (scraped_data fetched))%nat
  /\ (scraped_data fetched <> [] ->
      exists batch,
        url_batches Examples.state_one_batch
        = batch :: url_batches summarized)
  /\ (scraped_data fetched = [] ->
      url_batches summarized = url_batches Examples.state_one_batch
      /\ formatted_data summarized = []).
Proof.
  apply (fetch_then_summarize
           (Examples.cap_with (Return Examples.no_data)
              Examples.prose_reply Examples.loads_empty_object)
           Examples.state_one_batch tt
           (set_scraped_data [] Examples.state_one_batch)
           (set_formatted_data []
              (set_scraped_data [] Examples.state_one_batch)));
    reflexivity.
Defined.

(** ** What the endpoints never do *)

(** X25. [get_job_result] and [get_job_status] never change the store, and
    [get_job_result] returns only for a completed job that holds a result,
    and then what the validation makes of that result. *)
Theorem get_job_result_returns_only_completed
    (format_status : JobStatus -> string)
    (validate : Output -> outcome Output)
    (job_id : string) (store : gmap string Job) :
  fst (get_job_result format_status validate job_id store) = store
  /\ fst (get_job_status job_id store) = store
  /\ forall response,
      snd (get_job_result format_status validate job_id store)
      = Return response ->
      exists job output,
        store !! job_id = Some job
        /\ j_status job = COMPLETED
        /\ j_result job = ResultOutput output
        /\ validate output = Return response.
Proof.
  unfold get_job_result, get_job_status.
  destruct (store !! job_id) as [job|] eqn:Hjob; [|done].
  destruct (j_status job) eqn:Hst; try done.
  destruct (j_result job) as [| |output] eqn:Hres; try done.
  simpl. split; [done|]. split; [done|].
  intros response Hv. exists job, output. done.
Qed.

(** When the await of [run_scraping_job] comes back, with a value or with
    an [Exception]: an exception that leaves is the [KeyError] for its own
    job id, and the job is not in the store then; when it returns, the job
    is in the store, completed or failed, with its completion time. *)
Lemma run_scraping_job_resumed
    (str_exc : PyExc -> string) (job_id url now : string)
    (graph_invoke : outcome GraphResult)
    (meanwhile : gmap string Job -> gmap string Job)
    (store : gmap string Job) :
  let r :=
    run_scraping_job str_exc job_id url graph_invoke meanwhile now store in
  (forall e, snd r = Raise e -> e = KeyError job_id /\ fst r !! job_id = None)
  /\ (snd r = Return tt ->
      exists finished,
        fst r !! job_id = Some finished
        /\ (j_status finished = COMPLETED \/ j_status finished = FAILED)
        /\ j_completed_at finished = Some now).
Proof.
  intros r. subst r.
  destruct (store !! job_id) as [job|] eqn:Hjob.
  - destruct (meanwhile (<[job_id := with_status RUNNING job]> store)
                !! job_id) as [job'|] eqn:Hstill.
    + rewrite (run_scraping_job_run str_exc job_id url now graph_invoke
                 meanwhile store job job' Hjob Hstill). simpl.
      split; [done|]. intros _. eexists. split; [apply lookup_insert_eq|].
      destruct graph_invoke; simpl; auto.
    + assert (Hrun :
        run_scraping_job str_exc job_id url graph_invoke meanwhile now store
        = (meanwhile (<[job_id := with_status RUNNING job]> store),
           Raise (KeyError job_id))).
      { unfold run_scraping_job, try_except, jbind.
        rewrite (setitem_present _ _ _ _ Hjob).
        destruct graph_invoke; cbn beta iota;
          by rewrite !(setitem_missing _ _ _ Hstill). }
      rewrite Hrun. simpl. split; [|done]. by intros e [= <-].
  - assert (Hrun :
      run_scraping_job str_exc job_id url graph_invoke meanwhile now store
      = (store, Raise (KeyError job_id))).
    { unfold run_scraping_job, try_except, jbind.
      by rewrite !(setitem_missing _ _ _ Hjob). }
    rewrite Hrun. simpl. split; [|done]. by intros e [= <-].
Qed.

(** ** Interrupted tasks *)

Lemma scrape_sync_task_resumed
    (str_exc : PyExc -> string) (validate : Output -> outcome Output)
    (graph_invoke : outcome GraphResult) :
  scrape_sync_task str_exc validate (Resumed graph_invoke)
  = Ended (scrape_sync str_exc validate graph_invoke).
Proof.
  unfold scrape_sync_task, scrape_sync.
  destruct graph_invoke as [[output|]|e]; try reflexivity.
  by destruct (validate output).
Qed.

Lemma run_scraping_job_task_resumed
    (str_exc : PyExc -> string) (job_id url now : string)
    (graph_invoke : outcome GraphResult)
    (meanwhile : gmap string Job -> gmap string Job)
    (store : gmap string Job) :
  run_scraping_job_task str_exc job_id url (Resumed graph_invoke) meanwhile
    now store
  = (fst (run_scraping_job str_exc job_id url graph_invoke meanwhile now
            store),
     Ended (snd (run_scraping_job str_exc job_id url graph_invoke meanwhile
                   now store))).
Proof.
  unfold run_scraping_job_task, run_scraping_job, try_except_exception,
    try_except, tbind, jbind, of_J, await_thread.
  repeat (match goal with
          | |- context [setitem ?i ?f ?m] =>
              destruct (setitem i f m) as [? [[]|?]]; cbn beta iota
          | |- context [match ?g with Return _ => _ | Raise _ => _ end] =>
              is_var g; destruct g; cbn beta iota
          end); reflexivity.
Qed.

(** X20. [scrape_sync] ends in one of three ways: it returns what the
    validation made of a result the graph returned; or it raises an
    [HTTPException] with status 500, which it does for every [Exception]
    of the graph or of the validation and for a missing result; or a
    [BaseException] raised at its await, as [asyncio.CancelledError] is on
    cancellation, goes through [except Exception] and leaves it as it
    is. *)
Theorem scrape_sync_task_endings
    (str_exc : PyExc -> string) (validate : Output -> outcome Output)
    (a : awaited GraphResult) :
  (forall response,
     scrape_sync_task str_exc validate a = Ended (Return response) ->
     exists output,
       a = Resumed (Return (Some output))
       /\ validate output = Return response)
  /\ (forall e,
        scrape_sync_task str_exc validate a = Ended (Raise e) ->
        (exists detail, e = HTTPException 500 detail)
        /\ exists graph_invoke, a = Resumed graph_invoke)
  /\ (forall b,
        scrape_sync_task str_exc validate a = Escaped b <->
        a = Interrupted b).
Proof.
  destruct a as [graph_invoke|b0].
  - rewrite scrape_sync_task_resumed.
    destruct (scrape_sync_resumed str_exc validate graph_invoke)
      as [Hraise Hret].
    split; [|split].
    + intros response [= H]. apply Hret in H as (output & -> & Hv). eauto.
    + intros e [= H]. split; [by apply Hraise | eauto].
    + intros b. split; discriminate.
  - simpl. split; [discriminate|]. split; [discriminate|].
    intros b. split; by intros [= ->].
Qed.

(** X26. [run_scraping_job] ends in one of three ways. It returns, and the
    job is then in the store, completed or failed, with its completion
    time. Or it raises [KeyError] for its own job id, the job not being in
    the store then. Or a [BaseException] raised at its await, as
    [asyncio.CancelledError] is on cancellation, goes through
    [except Exception]: the job was in the store at the start, the handler
    has written nothing, and the store holds the job as running, as far as
    this run goes. *)
Theorem run_scraping_job_task_endings
    (str_exc : PyExc -> string) (job_id url now : string)
    (a : awaited GraphResult)
    (meanwhile : gmap string Job -> gmap string Job)
    (store : gmap string Job) :
  let r :=
    run_scraping_job_task str_exc job_id url a meanwhile now store in
  (snd r = Ended (Return tt) ->
   (exists graph_invoke, a = Resumed graph_invoke)
   /\ exists finished,
       fst r !! job_id = Some finished
       /\ (j_status finished = COMPLETED \/ j_status finished = FAILED)
       /\ j_completed_at finished = Some now)
  /\ (forall e,
        snd r = Ended (Raise e) ->
        e = KeyError job_id /\ fst r !! job_id = None)
  /\ (forall b,
        snd r = Escaped b ->
        a = Interrupted b
        /\ exists job,
            store !! job_id = Some job
            /\ fst r = meanwhile (<[job_id := with_status RUNNING job]> store)).
Proof.
  intros r. subst r. destruct a as [graph_invoke|b0].
  - rewrite run_scraping_job_task_resumed. simpl.
    destruct (run_scraping_job_resumed str_exc job_id url now graph_invoke
                meanwhile store) as [Hraise Hret].
    split; [|split].
    + intros [= H]. split; [eauto | by apply Hret].
    + intros e [= H]. by apply Hraise.
    + intros b H. discriminate H.
  - unfold run_scraping_job_task, try_except_exception, tbind, of_J,
      await_thread.
    destruct (store !! job_id) as [job|] eqn:Hjob.
    + rewrite (setitem_present _ _ _ _ Hjob). simpl.
      split; [discriminate|]. split; [discriminate|].
      intros b [= ->]. split; [done|]. by exists job.
    + rewrite !(setitem_missing _ _ _ Hjob). simpl.
      split; [discriminate|]. split; [|discriminate].
      by intros e [= <-].
Qed.

(** A run cancelled while the graph works: the job stays as running. *)
Example run_scraping_job_cancelled :
  run_scraping_job_task Examples.describe "job-1" "https://example.com/"
    (Interrupted CancelledError) (fun s => s) "2026-01-01T00:00:09"
    Examples.store_pending
  = ({[ "job-1" := with_status RUNNING Examples.pending_job ]},
     Escaped CancelledError).
Proof. vm_compute. reflexivity. Qed.

(** ** Parse failures that the handler does not catch *)

(** X27. When [json.loads] raises an exception that is not a
    [JSONDecodeError] on the reply for a page, the handler of [format]
    does not catch it: the exception leaves the loop after that call, no
    later page is sent, and [format] raises it instead of returning
    entries. *)
Theorem format_raises_other_parse_exception
    {World : Type} (cap : Capabilities World)
    (p : Document) (m : Metadata) (md : string)
    (acc : list Entry) (rest : list Document) (w w' : World)
    (message : AIMessage) (e : PyExc) :
  summarizable p m md ->
  llm_invoke cap (prompt (truncate_markdown md)) w
    = (Return (Some message), w') ->
  content message <> "" ->
  parse_response cap (content message) = Raise e ->
  is_json_decode_error e = false ->
  format_loop cap (p :: rest) acc w
  = {| trace := [EvLlmInvoke (prompt (truncate_markdown md))];
       world := w'; value := Raise e |}
  /\ (forall state,
        scraped_data state = p :: rest ->
        value (format cap state w) = Raise e).
Proof.
  intros Hs Hcall Hne Hparse Hother. apply str_truthy_true in Hne.
  assert (Hloop : forall acc0, format_loop cap (p :: rest) acc0 w =
                  {| trace := [EvLlmInvoke (prompt (truncate_markdown md))];
                     world := w'; value := Raise e |}).
  { intros acc0. rewrite format_loop_cons. unfold bind.
    rewrite (format_item_run cap p m md acc0 w _ w' Hs Hcall). simpl.
    rewrite Hne, Hparse. simpl. rewrite Hother. reflexivity. }
  split; [apply Hloop|].
  intros state Hpages. unfold format. rewrite Hpages. simpl list_truthy.
  cbv iota. unfold bind at 1. rewrite Hloop. reflexivity.
Qed.

Lemma format_raises_other_parse_exception_witness :
  format_loop Examples.cap_deep_reply
    [Examples.page_a; Examples.page_long] [] tt
  = {| trace := [EvLlmInvoke (prompt (truncate_markdown "Hello world"))];
       world := tt; value := Raise (RecursionError Examples.deep_message) |}
  /\ (forall state,
        scraped_data state = [Examples.page_a; Examples.page_long] ->
        value (format Examples.cap_deep_reply state tt)
        = Raise (RecursionError Examples.deep_message)).
Proof.
  apply (format_raises_other_parse_exception Examples.cap_deep_reply
           Examples.page_a Examples.meta_a "Hello world" []
           [Examples.page_long] tt tt
           {| content := Examples.deep_content |}
           (RecursionError Examples.deep_message)).
  - split; [reflexivity | split; [reflexivity | discriminate]].
  - reflexivity.
  - vm_compute. discriminate.
  - vm_compute. reflexivity.
  - reflexivity.
Defined.
